(** * rn-toast: the toast manager and the toast component

    A shallow embedding of the admission / sequencing logic of the
    repository and of the lifecycle of the [Toast] component it drives.

    The repository holds two managers:
    - the single-file build, [src/Toast.tsx] (constructor [monolith]);
    - the split build, [managers/ToastManager.ts] together with
      [components/Toast.tsx] and [hooks/useToast.ts] (constructor [modular]).
    The component and the hook are the same in both; the managers differ in
    [setToastRef], [setAnimating] and [show].

    Conventions of the embedding.
    - A JavaScript string is the list of its UTF-16 code units.
    - [Date.now()] is an argument ([now]) of every entry point.
    - Durations are integral numbers of milliseconds ([Z]); the delays and
      durations handed to the animation library are rationals, because the
      component halves them.
    - The manager and the component call each other (the manager calls
      [toastRef.show], which calls [ToastManager.setAnimating], which may
      call [processQueue], ...).  The call graph is executed by [exec], one
      arm per source function, with a fuel argument; [exec_total] shows that
      the fuel [enough w] always suffices.
    - User callbacks are opaque: invoking one is recorded in the trace.
    - The functions of the component are closures of the render that made
      them, and [hideToast] reads [config] from that render, not from the
      current state.  A closure is modelled with the [config] it sees: a
      timer closure carries it, a driver determines it ([seenBy]).
    - Of the animation library only what the source relies on is kept: a
      shared value holds a number and at most one running animation;
      [cancelAnimation] removes the animation; an animation that finishes
      sets the value and runs its completion handler. *)

From Stdlib Require Import String Ascii Arith ZArith NArith QArith Bool Lia List.
Import ListNotations.
Local Open Scope Z_scope.

(** ** JavaScript strings and [String.prototype.trim] *)

Definition jsstring := list N.

Definition js (s : string) : jsstring :=
  List.map N_of_ascii (list_ascii_of_string s).

(** WhiteSpace and LineTerminator code units of ECMAScript. *)
Definition isWhiteSpace (c : N) : bool :=
  (  (c =? 9) || (c =? 10) || (c =? 11) || (c =? 12) || (c =? 13)
  || (c =? 32) || (c =? 160) || (c =? 5760)
  || ((8192 <=? c) && (c <=? 8202))
  || (c =? 8232) || (c =? 8233) || (c =? 8239) || (c =? 8287)
  || (c =? 12288) || (c =? 65279))%N.

Fixpoint trimStart (s : jsstring) : jsstring :=
  match s with
  | [] => []
  | c :: s' => if isWhiteSpace c then trimStart s' else s
  end.

Definition trimEnd (s : jsstring) : jsstring := rev (trimStart (rev s)).

Definition trim (s : jsstring) : jsstring := trimEnd (trimStart s).

Definition isEmpty (s : jsstring) : bool :=
  match s with [] => true | _ => false end.

(** [!message || message.trim() === ""] *)
Definition blank (message : jsstring) : bool :=
  isEmpty message || isEmpty (trim message).

(** ** Types ([types/index.ts]) *)

Inductive ToastType := info | success | error.

Record ToastOptions := mkOptions {
  duration : option Z;
  animationDuration : option Z }.

Record ToastConfig := mkConfig {
  text : option jsstring;
  type : option ToastType;
  visible : bool;
  cfgDuration : Z;
  cfgAnimationDuration : Z }.

(** The objects the component hands to [setToastRef].  [refObject] is made
    once, by the effect that runs after the mount render.
    [useImperativeHandle] has no dependency list, so it makes a handle in
    every render: [imperativeHandle] is the handle of the mount render,
    [renderedHandle seen] the handle of a later render, in which [config]
    was [seen].  The [show] and [hide] of a driver are closures of the
    render that made it. *)
Inductive ToastRef :=
| refObject
| imperativeHandle
| renderedHandle (seen : ToastConfig).

Record ToastComponentProps := mkProps {
  defaultDuration : option Z;
  defaultAnimationDuration : option Z }.

(** ** Constants ([constants/index.ts]) *)

Definition ICON_SIZE : Z := 20.
Definition PADDING : Z := 12.
Definition CONTAINER_SIZE : Z := ICON_SIZE + PADDING * 2.
Definition MAX_QUEUE_SIZE : nat := 2.
Definition THROTTLE_DELAY : Z := 300.

(** ** State *)

(** A queue entry [{ message, type, options }]. *)
Record Request := mkRequest {
  message : jsstring;
  rtype : ToastType;
  options : option ToastOptions }.

(** The only closure ever given to [onReady]: [(ref) => { this.processQueue() }]. *)
Inductive Listener := drainWhenReady.

Definition CallbackId := nat.

(** What the component's [hide] can receive as callback: a callback of the
    application, or the closure [ToastManager.hide] builds around one. *)
Inductive HideCallback :=
| userCallback (c : CallbackId)
| managerCallback (callback : option CallbackId).

Record Manager := mkManager {
  toastRef : option ToastRef;
  listeners : list Listener;
  isAnimating : bool;
  queue : list Request;
  lastToastTime : Z }.

(** Completion handler of an animation: [runOnJS(completeHideAnimation)(callback)]. *)
Inductive Completion := completeHide (callback : option HideCallback).

Record Animation := mkAnimation {
  delay : Q;
  toValue : Z;
  animDuration : Q;
  onFinish : option Completion }.

Record SharedValue := mkShared {
  value : Z;
  animation : option Animation }.

Inductive SharedId := TransY | ToastWidth | TextOpacity.

Definition TimerId := nat.

(** Bodies of the two [setTimeout] closures of [showToast], with what they
    capture: the arguments of [showToast], and [hideToast] of the render
    [showToast] belongs to, which reads that render's [config] ([seen]). *)
Inductive TimerTask :=
| nextCycle (seen : ToastConfig) (animationDuration displayDuration : Z)
| autoHide (seen : ToastConfig).

Record Timer := mkTimer {
  timerId : TimerId;
  timerDelay : Z;
  timerTask : TimerTask }.

Record Component := mkComponent {
  props : ToastComponentProps;
  config : ToastConfig;
  timer : option TimerId;
  isAnimatingRef : bool;
  transY : SharedValue;
  toastWidth : SharedValue;
  textOpacity : SharedValue;
  timers : list Timer;
  nextTimerId : TimerId }.

(** What the trace records: [showToast] has accepted a text and set the
    configuration for it (with the durations it will use), and a callback
    of the application has been invoked. *)
Inductive Event :=
| Presented (text : jsstring) (type : ToastType)
            (animationDuration displayDuration : Z)
| Called (c : CallbackId).

Record World := mkWorld {
  mgr : Manager;
  cmp : Component;
  trace : list Event }.

(** *** Field updates *)

Definition set_toastRef (r : option ToastRef) (m : Manager) : Manager :=
  mkManager r (listeners m) (isAnimating m) (queue m) (lastToastTime m).
Definition set_listeners (l : list Listener) (m : Manager) : Manager :=
  mkManager (toastRef m) l (isAnimating m) (queue m) (lastToastTime m).
Definition set_isAnimating (b : bool) (m : Manager) : Manager :=
  mkManager (toastRef m) (listeners m) b (queue m) (lastToastTime m).
Definition set_queue (q : list Request) (m : Manager) : Manager :=
  mkManager (toastRef m) (listeners m) (isAnimating m) q (lastToastTime m).
Definition set_lastToastTime (t : Z) (m : Manager) : Manager :=
  mkManager (toastRef m) (listeners m) (isAnimating m) (queue m) t.

Definition set_config (c : ToastConfig) (k : Component) : Component :=
  mkComponent (props k) c (timer k) (isAnimatingRef k) (transY k)
    (toastWidth k) (textOpacity k) (timers k) (nextTimerId k).
Definition set_timer (t : option TimerId) (k : Component) : Component :=
  mkComponent (props k) (config k) t (isAnimatingRef k) (transY k)
    (toastWidth k) (textOpacity k) (timers k) (nextTimerId k).
Definition set_isAnimatingRef (b : bool) (k : Component) : Component :=
  mkComponent (props k) (config k) (timer k) b (transY k)
    (toastWidth k) (textOpacity k) (timers k) (nextTimerId k).
Definition set_timers (l : list Timer) (k : Component) : Component :=
  mkComponent (props k) (config k) (timer k) (isAnimatingRef k) (transY k)
    (toastWidth k) (textOpacity k) l (nextTimerId k).
Definition set_nextTimerId (n : TimerId) (k : Component) : Component :=
  mkComponent (props k) (config k) (timer k) (isAnimatingRef k) (transY k)
    (toastWidth k) (textOpacity k) (timers k) n.

Definition shared (v : SharedId) (k : Component) : SharedValue :=
  match v with
  | TransY => transY k
  | ToastWidth => toastWidth k
  | TextOpacity => textOpacity k
  end.

Definition set_shared (v : SharedId) (s : SharedValue) (k : Component) : Component :=
  match v with
  | TransY =>
      mkComponent (props k) (config k) (timer k) (isAnimatingRef k) s
        (toastWidth k) (textOpacity k) (timers k) (nextTimerId k)
  | ToastWidth =>
      mkComponent (props k) (config k) (timer k) (isAnimatingRef k) (transY k)
        s (textOpacity k) (timers k) (nextTimerId k)
  | TextOpacity =>
      mkComponent (props k) (config k) (timer k) (isAnimatingRef k) (transY k)
        (toastWidth k) s (timers k) (nextTimerId k)
  end.

Definition onMgr (f : Manager -> Manager) (w : World) : World :=
  mkWorld (f (mgr w)) (cmp w) (trace w).
Definition onCmp (f : Component -> Component) (w : World) : World :=
  mkWorld (mgr w) (f (cmp w)) (trace w).
Definition emit (e : Event) (w : World) : World :=
  mkWorld (mgr w) (cmp w) (trace w ++ [e]).

(** ** The animation library and the timers, as far as the source uses them *)

Definition withTiming (toValue : Z) (duration : Q) (callback : option Completion)
  : Animation := mkAnimation 0%Q toValue duration callback.

Definition withDelay (delayMs : Q) (a : Animation) : Animation :=
  mkAnimation delayMs (toValue a) (animDuration a) (onFinish a).

(** [v.value = a]: the animation replaces whatever ran on [v]. *)
Definition animate (v : SharedId) (a : Animation) (k : Component) : Component :=
  set_shared v (mkShared (value (shared v k)) (Some a)) k.

(** [v.value = x] with a plain number. *)
Definition assign (v : SharedId) (x : Z) (k : Component) : Component :=
  set_shared v (mkShared x None) k.

Definition cancelAnimation (v : SharedId) (k : Component) : Component :=
  set_shared v (mkShared (value (shared v k)) None) k.

Definition clearTimeout (id : TimerId) (k : Component) : Component :=
  set_timers (filter (fun t => negb (Nat.eqb (timerId t) id)) (timers k)) k.

(** [setTimeout(task, delay)]: the new component and the timer's id. *)
Definition setTimeout (task : TimerTask) (delayMs : Z) (k : Component)
  : Component * TimerId :=
  let id := nextTimerId k in
  (set_nextTimerId (S id) (set_timers (timers k ++ [mkTimer id delayMs task]) k), id).

Fixpoint findTimer (id : TimerId) (l : list Timer) : option TimerTask :=
  match l with
  | [] => None
  | t :: l' => if Nat.eqb (timerId t) id then Some (timerTask t) else findTimer id l'
  end.

(** [x || d] on numbers: [undefined] and [0] are falsy. *)
Definition orDefault (x : option Z) (d : Z) : Z :=
  match x with
  | Some v => if v =? 0 then d else v
  | None => d
  end.

(** Destructuring default [{ p = d } = props]. *)
Definition propDefault (x : option Z) (d : Z) : Z :=
  match x with Some v => v | None => d end.

(** ** Renders and their closures *)

(** The initial value of [useState]: the [config] the mount render sees. *)
Definition mountConfig (p : ToastComponentProps) : ToastConfig :=
  mkConfig None None false
    (propDefault (defaultDuration p) 4000)
    (propDefault (defaultAnimationDuration p) 400).

(** The [config] the functions of a driver see. *)
Definition seenBy (r : ToastRef) (k : Component) : ToastConfig :=
  match r with
  | refObject | imperativeHandle => mountConfig (props k)
  | renderedHandle seen => seen
  end.

(** The [config] seen by [this.toastRef.show] and [this.toastRef.hide]: the
    driver is the one the manager holds.  With none registered the call can
    only be one on the component's handle; it is taken to be the handle of
    the mount render. *)
Definition driverConfig (w : World) : ToastConfig :=
  match toastRef (mgr w) with
  | Some r => seenBy r (cmp w)
  | None => mountConfig (props (cmp w))
  end.

(** ** The calls of the program *)

Inductive Build := monolith | modular.

Inductive Call :=
(* ToastManagerSingleton *)
| MgrSetToastRef (ref : option ToastRef)
| MgrSetAnimating (status : bool)
| MgrProcessQueue
| MgrShow (message : jsstring) (type : option ToastType) (options : option ToastOptions)
| MgrHide (callback : option CallbackId)
| MgrOnReady (l : Listener)
(* useToast *)
| HookShowToast (message : jsstring) (type : option ToastType) (options : option ToastOptions)
| HookHideToast (callback : option CallbackId)
(* the driver: [this.toastRef.show] and [this.toastRef.hide] *)
| RefShow (message : jsstring) (type : ToastType) (options : option ToastOptions)
| RefHide (callback : option HideCallback)
(* Toast component *)
| CmpUpdateAnimationStatus (status : bool)
| CmpShowToast (seen : ToastConfig) (text : jsstring) (type : ToastType)
               (animationDuration displayDuration : Z)
| CmpHideToast (seen : ToastConfig) (callback : option HideCallback)
| CmpCompleteHideAnimation (callback : option HideCallback)
(* closures *)
| Invoke (cb : HideCallback)
| Notify (l : Listener)
(* the environment: a timer fires, an animation finishes *)
| FireTimer (id : TimerId)
| FinishAnimation (v : SharedId).

Definition bind {A B} (x : option A) (f : A -> option B) : option B :=
  match x with Some a => f a | None => None end.

Notation "x <- e ;; k" := (bind e (fun x => k))
  (at level 61, e at next level, right associativity).

Fixpoint forEach {A} (f : A -> World -> option World) (l : list A) (w : World)
  : option World :=
  match l with
  | [] => Some w
  | a :: l' => w1 <- f a w ;; forEach f l' w1
  end.

Definition typeDefault (t : option ToastType) : ToastType :=
  match t with Some t => t | None => info end.

(** ** [ToastManagerSingleton]: what both builds share *)

Module ToastManager.
Section Calls.
Variable call : Call -> World -> option World.
Variable now : Z.

Definition isValidToastRequest (message : jsstring) : bool :=
  negb (isEmpty (trim message)).

Definition processQueue (w : World) : option World :=
  let m := mgr w in
  if negb (isAnimating m) && (0 <? length (queue m))%nat
     && (match toastRef m with Some _ => true | None => false end)
  then
    match queue m with
    | nextToast :: rest =>
        let w := onMgr (set_queue rest) w in
        if negb (isEmpty (message nextToast))
           && negb (isEmpty (trim (message nextToast)))
        then
          let w := onMgr (set_isAnimating true) w in
          let w := onMgr (set_lastToastTime now) w in
          call (RefShow (message nextToast) (rtype nextToast) (options nextToast)) w
        else call MgrProcessQueue w
    | [] => call MgrProcessQueue w
    end
  else Some w.

Definition hide (callback : option CallbackId) (w : World) : option World :=
  match toastRef (mgr w) with
  | Some _ => call (RefHide (Some (managerCallback callback))) w
  | None => Some w
  end.

(** The closure [hide] passes on. *)
Definition hideCallback (callback : option CallbackId) (w : World) : option World :=
  let w := onMgr (set_isAnimating false) w in
  let w := match callback with Some c => emit (Called c) w | None => w end in
  call MgrProcessQueue w.

Definition onReady (l : Listener) (w : World) : option World :=
  match toastRef (mgr w) with
  | Some _ => call (Notify l) w
  | None => Some (onMgr (set_listeners (listeners (mgr w) ++ [l])) w)
  end.

Definition notify (l : Listener) (w : World) : option World :=
  match l with drainWhenReady => call MgrProcessQueue w end.

Definition push (r : Request) (w : World) : World :=
  onMgr (set_queue (queue (mgr w) ++ [r])) w.
End Calls.
End ToastManager.

(** ** The manager of [src/Toast.tsx] *)

Module Monolith.
Section Calls.
Variable call : Call -> World -> option World.
Variable now : Z.

Definition setToastRef (ref : option ToastRef) (w : World) : option World :=
  match ref with
  | Some r =>
      let w := onMgr (set_toastRef (Some r)) w in
      w <- forEach (fun l => call (Notify l)) (listeners (mgr w)) w ;;
      let w := onMgr (set_listeners []) w in
      call MgrProcessQueue w
  | None => Some w
  end.

Definition setAnimating (status : bool) (w : World) : option World :=
  let w := onMgr (set_isAnimating status) w in
  if negb status then call MgrProcessQueue w else Some w.

Definition show (message : jsstring) (type : option ToastType)
    (options : option ToastOptions) (w : World) : option World :=
  let type := typeDefault type in
  if negb (ToastManager.isValidToastRequest message) then Some w
  else if now - lastToastTime (mgr w) <? THROTTLE_DELAY then
    if (length (queue (mgr w)) <? MAX_QUEUE_SIZE)%nat
    then Some (ToastManager.push (mkRequest message type options) w)
    else Some w
  else
    match toastRef (mgr w), isAnimating (mgr w) with
    | Some _, false =>
        let w := onMgr (set_isAnimating true) w in
        let w := onMgr (set_lastToastTime now) w in
        call (RefShow message type options) w
    | ref, _ =>
        if (length (queue (mgr w)) <? MAX_QUEUE_SIZE)%nat then
          let w := ToastManager.push (mkRequest message type options) w in
          match ref with
          | None => call (MgrOnReady drainWhenReady) w
          | Some _ => Some w
          end
        else Some w
    end.
End Calls.
End Monolith.

(** ** The manager of [managers/ToastManager.ts] *)

Module Modular.
Section Calls.
Variable call : Call -> World -> option World.
Variable now : Z.

Definition setToastRef (ref : option ToastRef) (w : World) : option World :=
  Some (onMgr (set_toastRef ref) w).

Definition setAnimating (status : bool) (w : World) : option World :=
  Some (onMgr (set_isAnimating status) w).

Definition show (message : jsstring) (type : option ToastType)
    (options : option ToastOptions) (w : World) : option World :=
  let type := typeDefault type in
  if blank message then Some w
  else if (now - lastToastTime (mgr w) <? THROTTLE_DELAY) || isAnimating (mgr w)
  then Some w
  else
    let w := onMgr (set_lastToastTime now) w in
    match toastRef (mgr w) with
    | Some _ =>
        let w := onMgr (set_isAnimating true) w in
        call (RefShow message type options) w
    | None => Some w
    end.
End Calls.
End Modular.

(** ** The [Toast] component ([components/Toast.tsx], and the same code in
    [src/Toast.tsx])

    [config] is the component's state.  [showToast] and [hideToast] are
    declared in the body of the component, so each render has its own; the
    argument [seen] is the [config] of the render the function belongs to.
    [hideToast] reads it for the exit durations; [showToast] hands it on to
    its timer closures, which call [hideToast] of the same render.  The
    state updates ([setConfig], also in [resetConfig]) and the refs do not
    depend on the render.  The effect that widens the container once the
    text is measured touches only [toastWidth] and [textOpacity] and is
    left out. *)

Module Toast.
Section Calls.
Variable call : Call -> World -> option World.

Definition updateAnimationStatus (status : bool) (w : World) : option World :=
  let w := onCmp (set_isAnimatingRef status) w in
  call (MgrSetAnimating status) w.

(** [show] of the imperative handle and of [refObject]. *)
Definition show (seen : ToastConfig) (message : jsstring) (type : ToastType)
    (options : option ToastOptions) (w : World) : option World :=
  if blank message then call (CmpUpdateAnimationStatus false) w
  else
    let p := props (cmp w) in
    let animationDuration :=
      orDefault (match options with Some o => animationDuration o | None => None end)
                (propDefault (defaultAnimationDuration p) 400) in
    let duration :=
      orDefault (match options with Some o => duration o | None => None end)
                (propDefault (defaultDuration p) 4000) in
    call (CmpShowToast seen message type animationDuration duration) w.

Definition showToast (seen : ToastConfig) (text : jsstring) (type : ToastType)
    (animationDuration displayDuration : Z) (w : World) : option World :=
  if blank text then call (CmpUpdateAnimationStatus false) w
  else
    let w := match timer (cmp w) with
             | Some id => onCmp (clearTimeout id) w
             | None => w
             end in
    let w := onCmp (cancelAnimation TransY) w in
    let w := onCmp (cancelAnimation ToastWidth) w in
    let w := onCmp (cancelAnimation TextOpacity) w in
    w <- call (CmpUpdateAnimationStatus true) w ;;
    let w := onCmp (assign ToastWidth CONTAINER_SIZE) w in
    let w := onCmp (assign TextOpacity 0) w in
    let w := onCmp (set_config
                      (mkConfig (Some text) (Some type) true
                                displayDuration animationDuration)) w in
    let w := emit (Presented text type animationDuration displayDuration) w in
    let w := onCmp (fun k => fst (setTimeout
                                    (nextCycle seen animationDuration displayDuration)
                                    0 k)) w in
    Some w.

(** The closure [showToast] hands to [setTimeout(..., 0)]. *)
Definition onNextCycle (seen : ToastConfig) (animationDuration displayDuration : Z)
    (w : World) : option World :=
  let w := onCmp (animate TransY (withTiming 80 (inject_Z animationDuration) None)) w in
  let w := onCmp (fun k => let (k', id) := setTimeout (autoHide seen) displayDuration k in
                           set_timer (Some id) k') w in
  Some w.

(** [const animDuration = config.animationDuration]: the [config] is the one
    of the render this [hideToast] belongs to. *)
Definition hideToast (seen : ToastConfig) (callback : option HideCallback)
    (w : World) : option World :=
  if negb (isAnimatingRef (cmp w)) && (value (transY (cmp w)) =? -100) then
    match callback with
    | Some cb => call (Invoke cb) w
    | None => Some w
    end
  else
    let w := match timer (cmp w) with
             | Some id => onCmp (fun k => set_timer None (clearTimeout id k)) w
             | None => w
             end in
    let animDuration := cfgAnimationDuration seen in
    let w := onCmp (cancelAnimation TransY) w in
    let w := onCmp (cancelAnimation ToastWidth) w in
    let w := onCmp (cancelAnimation TextOpacity) w in
    let w := onCmp (animate TextOpacity
                      (withTiming 0 (inject_Z animDuration / 2) None)) w in
    let w := onCmp (animate ToastWidth
                      (withDelay (inject_Z animDuration / 2)
                         (withTiming CONTAINER_SIZE (inject_Z animDuration / 2) None))) w in
    let w := onCmp (animate TransY
                      (withDelay (inject_Z animDuration)
                         (withTiming (-100) (inject_Z animDuration)
                            (Some (completeHide callback))))) w in
    Some w.

Definition resetConfig (k : Component) : Component :=
  set_config (mkConfig None None false
                (cfgDuration (config k)) (cfgAnimationDuration (config k))) k.

Definition completeHideAnimation (callback : option HideCallback) (w : World)
  : option World :=
  w <- call (CmpUpdateAnimationStatus false) w ;;
  let w := onCmp resetConfig w in
  match callback with
  | Some cb => call (Invoke cb) w
  | None => Some w
  end.

(** A timer of the component fires. *)
Definition fireTimer (id : TimerId) (w : World) : option World :=
  match findTimer id (timers (cmp w)) with
  | Some task =>
      let w := onCmp (clearTimeout id) w in
      match task with
      | nextCycle seen a d => onNextCycle seen a d w
      | autoHide seen => call (CmpHideToast seen None) w
      end
  | None => Some w
  end.

(** The animation running on [v] reaches its end. *)
Definition finishAnimation (v : SharedId) (w : World) : option World :=
  match animation (shared v (cmp w)) with
  | Some a =>
      let w := onCmp (assign v (toValue a)) w in
      match onFinish a with
      | Some (completeHide callback) => call (CmpCompleteHideAnimation callback) w
      | None => Some w
      end
  | None => Some w
  end.
End Calls.
End Toast.

(** ** The hook ([hooks/useToast.ts]) *)

Module UseToast.
Section Calls.
Variable call : Call -> World -> option World.

Definition showToast (message : jsstring) (type : option ToastType)
    (options : option ToastOptions) (w : World) : option World :=
  let type := typeDefault type in
  if blank message then Some w
  else call (MgrShow message (Some type) options) w.

Definition hideToast (callback : option CallbackId) (w : World) : option World :=
  call (MgrHide callback) w.
End Calls.
End UseToast.

(** ** Running a call *)

Definition invoke (call : Call -> World -> option World) (cb : HideCallback)
    (w : World) : option World :=
  match cb with
  | userCallback c => Some (emit (Called c) w)
  | managerCallback callback => ToastManager.hideCallback call callback w
  end.

(** One arm per source function; [call] is the program itself. *)
Definition dispatch (build : Build) (now : Z)
    (call : Call -> World -> option World) (c : Call) (w : World)
  : option World :=
  match c with
  | MgrSetToastRef ref =>
      match build with
      | monolith => Monolith.setToastRef call ref w
      | modular => Modular.setToastRef ref w
      end
  | MgrSetAnimating status =>
      match build with
      | monolith => Monolith.setAnimating call status w
      | modular => Modular.setAnimating status w
      end
  | MgrProcessQueue => ToastManager.processQueue call now w
  | MgrShow message type options =>
      match build with
      | monolith => Monolith.show call now message type options w
      | modular => Modular.show call now message type options w
      end
  | MgrHide callback => ToastManager.hide call callback w
  | MgrOnReady l => ToastManager.onReady call l w
  | HookShowToast message type options => UseToast.showToast call message type options w
  | HookHideToast callback => UseToast.hideToast call callback w
  | RefShow message type options =>
      Toast.show call (driverConfig w) message type options w
  | RefHide callback => call (CmpHideToast (driverConfig w) callback) w
  | CmpUpdateAnimationStatus status => Toast.updateAnimationStatus call status w
  | CmpShowToast seen text type a d => Toast.showToast call seen text type a d w
  | CmpHideToast seen callback => Toast.hideToast call seen callback w
  | CmpCompleteHideAnimation callback => Toast.completeHideAnimation call callback w
  | Invoke cb => invoke call cb w
  | Notify l => ToastManager.notify call l w
  | FireTimer id => Toast.fireTimer call id w
  | FinishAnimation v => Toast.finishAnimation call v w
  end.

Fixpoint exec (build : Build) (now : Z) (fuel : nat) (c : Call) (w : World)
  : option World :=
  match fuel with
  | O => None
  | S fuel => dispatch build now (exec build now fuel) c w
  end.

(** Fuel that suffices for every call in [w] (see [exec_total]). *)
Definition enough (w : World) : nat := 16 + length (queue (mgr w)).

Definition run (build : Build) (now : Z) (c : Call) (w : World) : option World :=
  exec build now (enough w) c w.

(** ** Initial state *)

Definition initialManager : Manager := mkManager None [] false [] 0.

Definition initialComponent (p : ToastComponentProps) : Component :=
  mkComponent p (mountConfig p) None false
    (mkShared (-100) None) (mkShared CONTAINER_SIZE None) (mkShared 0 None)
    [] 1%nat.

Definition initialWorld (p : ToastComponentProps) : World :=
  mkWorld initialManager (initialComponent p) [].

(** A chronological script of calls, each with the time it happens at. *)
Fixpoint runAll (build : Build) (script : list (Z * Call)) (w : World)
  : option World :=
  match script with
  | [] => Some w
  | (now, c) :: rest => w1 <- run build now c w ;; runAll build rest w1
  end.

(** ** What the component draws ([components/Toast.tsx])

    The render guard and the styling helpers.  [customIcons] and
    [customColors] are objects with an optional entry per toast type: here
    partial maps from [ToastType]. *)

(** [if (!config.text || config.text.trim() === "") return null] *)
Definition rendersNull (cfg : ToastConfig) : bool :=
  match text cfg with
  | None => true
  | Some t => blank t
  end.

Module Style.
(** An image: a bundled asset of [ASSETS], or one the application gave. *)
Inductive ImageSource := asset (t : ToastType) | customImage (n : nat).

Record Colors := mkColors { background : string; text : string }.

Definition ASSETS (t : ToastType) : ImageSource := asset t.

(** [custom && config.type && custom[config.type]] *)
Definition customEntry {A} (custom : option (ToastType -> option A))
    (cfg : ToastConfig) : option A :=
  match custom, type cfg with
  | Some c, Some t => c t
  | _, _ => None
  end.

Definition getIconSource (customIcons : option (ToastType -> option ImageSource))
    (cfg : ToastConfig) : ImageSource :=
  match customEntry customIcons cfg with
  | Some icon => icon
  | None =>
      match type cfg with
      | Some success => ASSETS success
      | Some error => ASSETS error
      | _ => ASSETS info
      end
  end.

Definition getBackgroundColor (customColors : option (ToastType -> option Colors))
    (cfg : ToastConfig) : string :=
  match customEntry customColors cfg with
  | Some c => background c
  | None =>
      match type cfg with
      | Some success => "#d8e3d6"
      | Some error => "#d2c5c6"
      | _ => "#c5c9d2"
      end
  end.

Definition getTextColor (customColors : option (ToastType -> option Colors))
    (cfg : ToastConfig) : string :=
  match customEntry customColors cfg with
  | Some c => text c
  | None =>
      match type cfg with
      | Some success => "#2a7e1a"
      | Some error => "#ce3f4a"
      | _ => "#3f82ce"
      end
  end.
End Style.

(** ** Mounting ([components/Toaster.tsx] and the effect of [Toast])

    The ref callback of [Toaster] passes the handle on when there is one;
    the effect of [Toast] registers [refObject] and its clean-up registers
    [null].  On mount the ref callback runs before the effect; on unmount
    both run, the ref callback with [null]. *)

Definition toasterRef (build : Build) (now : Z) (ref : option ToastRef)
    (w : World) : option World :=
  match ref with
  | Some r => run build now (MgrSetToastRef (Some r)) w
  | None => Some w
  end.

Definition mount (build : Build) (now : Z) (w : World) : option World :=
  w1 <- toasterRef build now (Some imperativeHandle) w ;;
  run build now (MgrSetToastRef (Some refObject)) w1.

Definition unmount (build : Build) (now : Z) (w : World) : option World :=
  w1 <- toasterRef build now None w ;;
  run build now (MgrSetToastRef None) w1.

(** * Notions used in the statements

    Closed forms of the calls, predicates on states, and the concrete
    states and scripts of the examples.  The lemmas of the next part relate
    the closed forms to [exec]. *)

Definition approx (call1 call2 : Call -> World -> option World) : Prop :=
  forall c w w', call1 c w = Some w' -> call2 c w = Some w'.

Definition qlen (w : World) : nat := length (queue (mgr w)).

Definition pushes (c : Call) : nat :=
  match c with
  | MgrShow _ _ _ | HookShowToast _ _ _ => 1
  | _ => 0
  end.

Definition rank (c : Call) (w : World) : nat :=
  match c with
  | MgrSetAnimating status => if status then 1 else qlen w + 6
  | CmpUpdateAnimationStatus status => if status then 2 else qlen w + 7
  | CmpShowToast _ text _ _ _ => if blank text then qlen w + 8 else 3
  | RefShow message _ _ => if blank message then qlen w + 8 else 4
  | MgrProcessQueue => qlen w + 5
  | Notify _ | Invoke _ => qlen w + 6
  | MgrOnReady _ | MgrSetToastRef _ | CmpHideToast _ _ => qlen w + 7
  | CmpCompleteHideAnimation _ | RefHide _ | FireTimer _ => qlen w + 8
  | MgrShow _ _ _ | MgrHide _ | FinishAnimation _ => qlen w + 9
  | HookShowToast _ _ _ | HookHideToast _ => qlen w + 10
  end.

Definition resolveAnimationDuration (o : option ToastOptions)
    (p : ToastComponentProps) : Z :=
  orDefault (match o with Some o => animationDuration o | None => None end)
            (propDefault (defaultAnimationDuration p) 400).

Definition resolveDuration (o : option ToastOptions) (p : ToastComponentProps) : Z :=
  orDefault (match o with Some o => duration o | None => None end)
            (propDefault (defaultDuration p) 4000).

(** [showToast] on a text that is not blank, [showToast] being the one of
    the render that saw [seen]. *)
Definition present (seen : ToastConfig) (text : jsstring) (ty : ToastType)
    (a d : Z) (w : World) : World :=
  let w := match timer (cmp w) with
           | Some id => onCmp (clearTimeout id) w
           | None => w
           end in
  let w := onCmp (cancelAnimation TransY) w in
  let w := onCmp (cancelAnimation ToastWidth) w in
  let w := onCmp (cancelAnimation TextOpacity) w in
  let w := onCmp (set_isAnimatingRef true) w in
  let w := onMgr (set_isAnimating true) w in
  let w := onCmp (assign ToastWidth CONTAINER_SIZE) w in
  let w := onCmp (assign TextOpacity 0) w in
  let w := onCmp (set_config (mkConfig (Some text) (Some ty) true d a)) w in
  let w := emit (Presented text ty a d) w in
  onCmp (fun k => fst (setTimeout (nextCycle seen a d) 0 k)) w.

(** [toastRef.show] on a message that is not blank. *)
Definition display (m : jsstring) (ty : ToastType) (o : option ToastOptions)
    (w : World) : World :=
  present (driverConfig w) m ty (resolveAnimationDuration o (props (cmp w)))
          (resolveDuration o (props (cmp w))) w.

(** The event a displayed request leaves in the trace. *)
Definition presented (p : ToastComponentProps) (r : Request) : Event :=
  Presented (message r) (rtype r)
    (resolveAnimationDuration (options r) p) (resolveDuration (options r) p).

Definition admission (now : Z) (r : Request) (w : World) : World :=
  display (message r) (rtype r) (options r)
    (onMgr (set_lastToastTime now) (onMgr (set_isAnimating true) w)).

(** [processQueue] once its guard has passed, by recursion on the queue. *)
Fixpoint drainList (now : Z) (q : list Request) (w : World) : World :=
  match q with
  | [] => w
  | r :: rest =>
      let w := onMgr (set_queue rest) w in
      if blank (message r) then drainList now rest w else admission now r w
  end.

Definition canDrain (w : World) : bool :=
  negb (isAnimating (mgr w))
  && match toastRef (mgr w) with Some _ => true | None => false end.

Definition drain (now : Z) (w : World) : World :=
  if canDrain w then drainList now (queue (mgr w)) w else w.

(** Both flags set to [status], nothing else: [updateAnimationStatus] when
    the manager's [setAnimating] does not drain. *)
Definition mark (status : bool) (w : World) : World :=
  onMgr (set_isAnimating status) (onCmp (set_isAnimatingRef status) w).

(** The closure [hide] hands to the component: release, report, drain. *)
Definition released (callback : option CallbackId) (w : World) : World :=
  let w := onMgr (set_isAnimating false) w in
  match callback with Some c => emit (Called c) w | None => w end.

Definition valid (r : Request) : Prop := blank (message r) = false.

(** A script of busy-releases, one per given time. *)
Definition releases (times : list Z) : list (Z * Call) :=
  map (fun t => (t, Invoke (managerCallback None))) times.

Definition noProps : ToastComponentProps := mkProps None None.

(** A driver is registered, nothing is shown, ["A"] and ["B"] wait: both
    were requested in the first 300 ms, inside the throttle window. *)
Definition registerThenAB : list (Z * Call) :=
  [(0, MgrSetToastRef (Some refObject));
   (100, MgrShow (js "A") None None);
   (200, MgrShow (js "B") (Some success) None)].

Definition waitingAB : World :=
  Eval vm_compute in
    match runAll monolith registerThenAB (initialWorld noProps) with
    | Some w => w
    | None => initialWorld noProps
    end.

Definition throttled (now : Z) (w : World) : Prop :=
  now - lastToastTime (mgr w) < THROTTLE_DELAY.

Definition busy (w : World) : Prop := isAnimating (mgr w) = true.

Definition isShow (tc : Z * Call) : Prop :=
  exists m ty o, snd tc = MgrShow m ty o.

(** A driver is registered and ["A"] was admitted at time 1000000. *)
Definition registerAndShowA : list (Z * Call) :=
  [(1000000, MgrSetToastRef (Some refObject));
   (1000000, MgrShow (js "A") None None)].

(** ["A"] is being shown since time 1000000; the queue is empty. *)
Definition showingA : World :=
  Eval vm_compute in
    match runAll modular registerAndShowA (initialWorld noProps) with
    | Some w => w
    | None => initialWorld noProps
    end.

(** A driver is registered, nothing is shown; a request made at time 1000,
    before the driver registered, was lost. *)
Definition idle : World :=
  mkWorld (mkManager (Some refObject) [] false [] 1000)
          (initialComponent noProps) [].

Definition queueOk (w : World) : Prop :=
  (length (queue (mgr w)) <= MAX_QUEUE_SIZE)%nat /\ Forall valid (queue (mgr w)).

(** The calls open to the application, the component's handle, the timers
    and the animation library; the others are private. *)
Definition public (c : Call) : bool :=
  match c with
  | MgrSetToastRef _ | MgrSetAnimating _ | MgrShow _ _ _ | MgrHide _
  | HookShowToast _ _ _ | HookHideToast _ | RefShow _ _ _ | RefHide _
  | FireTimer _ | FinishAnimation _ => true
  | _ => false
  end.

Inductive reachable (build : Build) (p : ToastComponentProps) : World -> Prop :=
| reachable_init : reachable build p (initialWorld p)
| reachable_step (w : World) (now : Z) (c : Call) (w' : World) :
    reachable build p w -> public c = true ->
    run build now c w = Some w' -> reachable build p w'.

(** Four requests in 160 ms, with a driver: one shown, two queued, one dropped. *)
Definition burst : list (Z * Call) :=
  [(1000000, MgrSetToastRef (Some refObject));
   (1000000, MgrShow (js "A") None None);
   (1000100, MgrShow (js "B") None None);
   (1000150, MgrShow (js "C") None None);
   (1000160, MgrShow (js "D") None None)].

Definition freshTimers (k : Component) : Prop :=
  Forall (fun t => (timerId t < nextTimerId k)%nat) (timers k).

Definition hidden (w : World) : Prop :=
  isAnimatingRef (cmp w) = false /\ value (transY (cmp w)) = -100.

(** [hideToast] when something is shown, [hideToast] being the one of the
    render that saw [seen]. *)
Definition retract (seen : ToastConfig) (callback : option HideCallback)
    (w : World) : World :=
  let w := match timer (cmp w) with
           | Some id => onCmp (fun k => set_timer None (clearTimeout id k)) w
           | None => w
           end in
  let animDuration := cfgAnimationDuration seen in
  let w := onCmp (cancelAnimation TransY) w in
  let w := onCmp (cancelAnimation ToastWidth) w in
  let w := onCmp (cancelAnimation TextOpacity) w in
  let w := onCmp (animate TextOpacity
                    (withTiming 0 (inject_Z animDuration / 2) None)) w in
  let w := onCmp (animate ToastWidth
                    (withDelay (inject_Z animDuration / 2)
                       (withTiming CONTAINER_SIZE (inject_Z animDuration / 2) None))) w in
  onCmp (animate TransY
           (withDelay (inject_Z animDuration)
              (withTiming (-100) (inject_Z animDuration)
                 (Some (completeHide callback))))) w.

Definition shown (w : World) : Prop :=
  isAnimatingRef (cmp w) = true \/ value (transY (cmp w)) <> -100.

(** The closure of [setTimeout(..., 0)], after its timer has fired. *)
Definition ticked (id : TimerId) (seen : ToastConfig) (a d : Z) (w : World)
  : World :=
  let w := onCmp (clearTimeout id) w in
  let w := onCmp (animate TransY (withTiming 80 (inject_Z a) None)) w in
  onCmp (fun k => let (k', id) := setTimeout (autoHide seen) d k in
                  set_timer (Some id) k') w.

(** What [completeHideAnimation] leaves when the manager's [setAnimating]
    does not drain (the split build). *)
Definition settled (callback : option HideCallback) (w : World) : World :=
  let w := onCmp Toast.resetConfig (mark false w) in
  match callback with
  | Some (userCallback c) => emit (Called c) w
  | Some (managerCallback cb) => released cb w
  | None => w
  end.

(** The callbacks of the application that a completion invokes. *)
Definition calls (cb : option HideCallback) : list Event :=
  match cb with
  | Some (userCallback c) | Some (managerCallback (Some c)) => [Called c]
  | _ => []
  end.

(** ["A"] is on display: admitted at 1000000, its next-cycle timer fired. *)
Definition displayA : list (Z * Call) :=
  registerAndShowA ++ [(1000001, FireTimer 1%nat)].

Definition onDisplayA : World :=
  Eval vm_compute in
    match runAll modular displayA (initialWorld noProps) with
    | Some w => w
    | None => initialWorld noProps
    end.

(** The world in which the exit animation of [r0] ends, [r0] having been
    accepted in [w] at time [t0]: its next-cycle timer and then its
    auto-dismiss timer have fired. *)
Definition exiting (w : World) (t0 : Z) (r0 : Request) : World :=
  let id := nextTimerId (cmp w) in
  let seen := driverConfig w in
  let a := resolveAnimationDuration (options r0) (props (cmp w)) in
  let d := resolveDuration (options r0) (props (cmp w)) in
  retract seen None
    (onCmp (clearTimeout (S id)) (ticked id seen a d (admission t0 r0 w))).

(** The world the drain of the completion starts from. *)
Definition releasedAfter (w : World) (t0 : Z) (r0 : Request) : World :=
  mark false (onCmp (assign TransY (-100)) (exiting w t0 r0)).

(** A driver is registered, nothing is shown, and ["B"] waits in the queue:
    it was requested 100 ms after start-up, inside the throttle window. *)
Definition registerThenB : list (Z * Call) :=
  [(0, MgrSetToastRef (Some refObject)); (100, MgrShow (js "B") None None)].

Definition waitingB : World :=
  Eval vm_compute in
    match runAll monolith registerThenB (initialWorld noProps) with
    | Some w => w
    | None => initialWorld noProps
    end.

(** Every call but the private [onReady]. *)
Definition notOnReady (c : Call) : Prop :=
  match c with MgrOnReady _ => False | _ => True end.

(** The waiters are in step with the registration: none once a driver is
    registered, and before that no more of them than queued requests. *)
Definition waitersOk (w : World) : Prop :=
  match toastRef (mgr w) with
  | Some _ => listeners (mgr w) = []
  | None => (length (listeners (mgr w)) <= length (queue (mgr w)))%nat
  end.

(** What [waitersOk] needs before a call: [onReady] comes after its
    request has been queued. *)
Definition waitersBefore (c : Call) (w : World) : Prop :=
  match c with
  | MgrOnReady _ =>
      match toastRef (mgr w) with
      | Some _ => listeners (mgr w) = []
      | None => (S (length (listeners (mgr w))) <= length (queue (mgr w)))%nat
      end
  | _ => waitersOk w
  end.

(** The conditions under which [show] displays its request at once. *)
Definition accepts (now : Z) (m : jsstring) (w : World) : Prop :=
  blank m = false
  /\ THROTTLE_DELAY <= now - lastToastTime (mgr w)
  /\ isAnimating (mgr w) = false
  /\ toastRef (mgr w) <> None.

(** [completeHideAnimation] in [src/Toast.tsx], from the end of the exit
    animation: both flags released and a drain, the configuration reset,
    then the callback. *)
Definition completed (now : Z) (cb : option HideCallback) (w : World) : World :=
  let w := onCmp Toast.resetConfig (drain now (mark false w)) in
  match cb with
  | Some (userCallback c) => emit (Called c) w
  | Some (managerCallback callback) => drain now (released callback w)
  | None => w
  end.

(** A completion whose callback is not the manager's: the auto-dismiss
    timer, or [hide] of the component's handle. *)
Definition ownCallback (cb : option HideCallback) : Prop :=
  match cb with
  | Some (managerCallback _) => False
  | _ => True
  end.

(** ["A"] is leaving (its auto-dismiss timer has fired) and ["B"] waits. *)
Definition leavingAThenB : World :=
  Eval vm_compute in
    match runAll monolith
            [(1000000, MgrSetToastRef (Some refObject));
             (1000000, MgrShow (js "A") None None);
             (1000100, MgrShow (js "B") None None);
             (1000101, FireTimer 1%nat);
             (1004101, FireTimer 2%nat)] (initialWorld noProps) with
    | Some w => w
    | None => initialWorld noProps
    end.

(** ["A"] is being dismissed through the manager, with callback 7, while
    ["B"] and ["C"] wait. *)
Definition hidingAThenBC : World :=
  Eval vm_compute in
    match runAll monolith
            [(1000000, MgrSetToastRef (Some refObject));
             (1000000, MgrShow (js "A") None None);
             (1000100, MgrShow (js "B") None None);
             (1000150, MgrShow (js "C") None None);
             (1000151, FireTimer 1%nat);
             (1002000, MgrHide (Some 7%nat))] (initialWorld noProps) with
    | Some w => w
    | None => initialWorld noProps
    end.

(** The manager's busy flag and the component's say the same. *)
Definition flagsAgree (w : World) : Prop :=
  isAnimating (mgr w) = isAnimatingRef (cmp w).

(** What a call needs for the flags to agree when it returns.  The
    component calls [setAnimating] after it has set its own flag; the
    manager's callback runs when the component is not animating; the calls
    that display set both flags themselves. *)
Definition flagsBefore (c : Call) (w : World) : Prop :=
  match c with
  | MgrSetAnimating status => isAnimatingRef (cmp w) = status
  | Invoke (managerCallback _) => isAnimatingRef (cmp w) = false
  | RefShow _ _ _ | CmpShowToast _ _ _ _ _ | CmpUpdateAnimationStatus _
  | CmpCompleteHideAnimation _ => True
  | _ => flagsAgree w
  end.

(** What holds when the call has returned, in [managers/ToastManager.ts]. *)
Definition flagsAfter (c : Call) (w : World) : Prop :=
  flagsAgree w
  /\ match c with
     | MgrSetAnimating status | CmpUpdateAnimationStatus status =>
         isAnimatingRef (cmp w) = status
     | _ => True
     end.

(** The public calls other than [setAnimating], which is the component's
    to call. *)
Definition fromOutside (c : Call) : bool :=
  match c with
  | MgrSetAnimating _ => false
  | _ => public c
  end.

(** Nothing is pending in the component: no timer, no animation. *)
Definition quiet (w : World) : Prop :=
  timers (cmp w) = [] /\ forall v, animation (shared v (cmp w)) = None.

(** The colours of the three [switch] statements, as (background, text). *)
Definition builtinColors : list (string * string) :=
  [("#d8e3d6", "#2a7e1a"); ("#d2c5c6", "#ce3f4a"); ("#c5c9d2", "#3f82ce")]%string.

(** * Properties *)

(** ** Messages *)

Lemma blank_trim (m : jsstring) : blank m = isEmpty (trim m).
Proof.
  unfold blank. destruct m as [|c m]; [reflexivity|]. reflexivity.
Qed.

Lemma valid_not_blank (m : jsstring) :
  ToastManager.isValidToastRequest m = negb (blank m).
Proof. unfold ToastManager.isValidToastRequest. now rewrite blank_trim. Qed.

Lemma queue_check (m : jsstring) :
  negb (isEmpty m) && negb (isEmpty (trim m)) = negb (blank m).
Proof. unfold blank. now rewrite negb_orb. Qed.

(** ** More fuel changes nothing *)

Lemma forEach_approx {A} (f g : A -> World -> option World) (l : list A) :
  (forall a w w', f a w = Some w' -> g a w = Some w') ->
  forall w w', forEach f l w = Some w' -> forEach g l w = Some w'.
Proof.
  intros Hfg. induction l as [|a l IH]; simpl; intros w w' H; [assumption|].
  destruct (f a w) as [w1|] eqn:E; simpl in H; [|discriminate].
  rewrite (Hfg _ _ _ E). simpl. now apply IH.
Qed.

Ltac split_match H :=
  match type of H with
  | context [bind ?e _] =>
      let E := fresh "E" in destruct e eqn:E; simpl in *; [|discriminate H]
  | context [match ?e with _ => _ end] =>
      let E := fresh "E" in destruct e eqn:E; simpl in *
  | context [if ?e then _ else _] =>
      let E := fresh "E" in destruct e eqn:E; simpl in *
  end.

Ltac unfold_calls :=
  unfold invoke in *;
  unfold Monolith.setToastRef, Monolith.setAnimating, Monolith.show,
    Modular.setToastRef, Modular.setAnimating, Modular.show,
    ToastManager.processQueue, ToastManager.hide, ToastManager.onReady,
    ToastManager.notify, ToastManager.hideCallback, invoke,
    UseToast.showToast, UseToast.hideToast,
    Toast.show, Toast.updateAnimationStatus, Toast.showToast, Toast.hideToast,
    Toast.completeHideAnimation, Toast.fireTimer, Toast.finishAnimation,
    Toast.onNextCycle in *.

Lemma dispatch_approx (build : Build) (now : Z) call1 call2 :
  approx call1 call2 -> approx (dispatch build now call1) (dispatch build now call2).
Proof.
  intros Hc c w w' H.
  destruct c; destruct build; simpl in *; unfold_calls; simpl in *;
    repeat (first [ discriminate | assumption | split_match H ]);
    repeat match goal with
           | E : call1 _ _ = Some _ |- _ => apply Hc in E; try rewrite E; simpl
           | E : forEach _ _ _ = Some _ |- _ =>
               apply (forEach_approx _ (fun l => call2 (Notify l))) in E;
               [rewrite E; simpl | intros; now apply Hc]
           end;
    try assumption; try (now apply Hc); try reflexivity.
Qed.

Lemma exec_S (build : Build) (now : Z) (fuel : nat) :
  approx (exec build now fuel) (exec build now (S fuel)).
Proof.
  induction fuel as [|fuel IH]; intros c w w' H; [discriminate|].
  change (dispatch build now (exec build now (S fuel)) c w = Some w').
  exact (dispatch_approx build now _ _ IH c w w' H).
Qed.

Lemma exec_le (build : Build) (now : Z) (f g : nat) :
  (f <= g)%nat -> approx (exec build now f) (exec build now g).
Proof.
  induction 1 as [|g _ IH]; intros c w w' H; [assumption|].
  apply exec_S. now apply IH.
Qed.

(** ** The queue only grows in [show], by one entry *)

Lemma forEach_qlen {A} (f : A -> World -> option World) (l : list A) :
  (forall a w w', f a w = Some w' -> (qlen w' <= qlen w)%nat) ->
  forall w w', forEach f l w = Some w' -> (qlen w' <= qlen w)%nat.
Proof.
  intros Hf. induction l as [|a l IH]; simpl; intros w w' H.
  - injection H as <-. lia.
  - destruct (f a w) as [w1|] eqn:E; simpl in H; [|discriminate].
    specialize (Hf _ _ _ E). specialize (IH _ _ H). lia.
Qed.

Ltac use_IH IH :=
  repeat match goal with
         | E : exec _ _ _ _ _ = Some _ |- _ => apply IH in E; simpl in E
         end.

Lemma exec_qlen (build : Build) (now : Z) (f : nat) :
  forall c w w', exec build now f c w = Some w' ->
                 (qlen w' <= qlen w + pushes c)%nat.
Proof.
  induction f as [|f IH]; intros c w w' H; [discriminate|].
  simpl in H.
  destruct c; destruct build; simpl in *; unfold_calls; simpl in *;
    repeat (first [ discriminate | split_match H ]);
    try match goal with
        | E : forEach _ _ _ = Some _ |- _ =>
            apply forEach_qlen in E;
            [| intros ? ? ? E'; apply IH in E'; simpl in E'; lia]
        end;
    use_IH IH;
    repeat match goal with
           | H : Some _ = Some _ |- _ => injection H as <-
           end;
    unfold qlen, ToastManager.push in *; simpl in *;
    repeat match goal with
           | E : queue _ = _ :: _ |- _ => rewrite E in *; simpl in *
           end;
    repeat match goal with
           | E : context [match ?e with _ => _ end] |- _ =>
               destruct e eqn:?; simpl in *
           end;
    rewrite ?length_app in *; simpl in *; try lia.
Qed.

(** ** Every call returns

    [rank c w] bounds the depth of the calls [c] makes in [w]: a drain
    recurses once per queue entry, and what a drain displays has a message
    that is not blank, so the component does not call back into a drain. *)

Lemma forEach_total {A} (f : A -> World -> option World) (l : list A) (n : nat) :
  (forall a w, (qlen w <= n)%nat ->
               exists w', f a w = Some w' /\ (qlen w' <= qlen w)%nat) ->
  forall w, (qlen w <= n)%nat ->
            exists w', forEach f l w = Some w' /\ (qlen w' <= qlen w)%nat.
Proof.
  intros Hf. induction l as [|a l IH]; simpl; intros w Hw.
  - exists w. split; [reflexivity | lia].
  - destruct (Hf a w Hw) as (w1 & E & Hq). rewrite E. simpl.
    destruct (IH w1 ltac:(lia)) as (w2 & E2 & Hq2).
    exists w2. split; [assumption | lia].
Qed.

Ltac rank_side :=
  simpl; unfold qlen, ToastManager.push in *; simpl in *; subst;
  rewrite ?queue_check, ?valid_not_blank in *;
  repeat match goal with
         | E : negb _ = true |- _ => apply negb_true_iff in E
         | E : negb _ = false |- _ => apply negb_false_iff in E
         | E : queue _ = _ |- _ => rewrite E in *; simpl in *
         | E : blank ?m = _ |- context [blank ?m] => rewrite E
         | E : context [(0 <? 0)%nat] |- _ =>
             change (0 <? 0)%nat with false in E
         | E : context [(_ && false)%bool] |- _ =>
             rewrite andb_false_r in E; simpl in E
         | E : false = true |- _ => discriminate E
         | |- context [match ?e with _ => _ end] => destruct e; simpl in *
         | E : context [if ?e then _ else _] |- _ => destruct e; simpl in *
         end;
  rewrite ?length_app in *; simpl in *;
  try lia.

Ltac total_step IH :=
  match goal with
  | |- exists w', Some _ = Some w' => eexists; reflexivity
  | |- exists w', bind (forEach ?g ?l ?w0) _ = Some w' =>
      let w1 := fresh "w" in
      let E1 := fresh "E" in
      let Hq1 := fresh "Hq" in
      destruct (forEach_total g l (qlen w0)) with (w := w0)
        as (w1 & E1 & Hq1);
      [ let a := fresh "a" in
        let wa := fresh "w" in
        let Ha := fresh "Ha" in
        let wb := fresh "w" in
        let Eb := fresh "E" in
        intros a wa Ha; destruct (IH (Notify a) wa) as [wb Eb];
        [ rank_side
        | exists wb; split;
          [ exact Eb | apply exec_qlen in Eb; simpl in Eb; lia ] ]
      | lia
      | rewrite E1; simpl ]
  | |- exists w', bind (exec ?b ?n ?f ?c ?w) _ = Some w' =>
      let w2 := fresh "w" in
      let E := fresh "E" in
      destruct (IH c w) as [w2 E];
      [ rank_side
      | rewrite E; apply exec_qlen in E; simpl in E; simpl ]
  | |- exists w', exec ?b ?n ?f ?c ?w = Some w' => apply IH; rank_side
  | |- exists w', match ?e with _ => _ end = Some w' => destruct e eqn:?; simpl
  | |- exists w', (if ?e then _ else _) = Some w' => destruct e eqn:?; simpl
  end.

Lemma exec_rank (build : Build) (now : Z) (f : nat) :
  forall c w, (rank c w <= f)%nat -> exists w', exec build now f c w = Some w'.
Proof.
  induction f as [|f IH]; intros c w Hf.
  - exfalso. destruct c; simpl in Hf;
      repeat match type of Hf with
             | context [if ?e then _ else _] => destruct e
             end; lia.
  - simpl.
    destruct c; destruct build; simpl in *; unfold_calls; simpl in *;
      repeat total_step IH.
Qed.

(** The fuel of [run] suffices: every call returns. *)
Theorem exec_total (build : Build) (now : Z) (c : Call) (w : World) :
  exists w', run build now c w = Some w'.
Proof.
  apply exec_rank. unfold enough. fold (qlen w).
  destruct c; simpl;
    repeat match goal with
           | |- context [if ?e then _ else _] => destruct e
           end; lia.
Qed.

(** ** What the calls amount to *)

Arguments exec : simpl never.

Lemma exec_unfold build now f c w :
  exec build now (S f) c w = dispatch build now (exec build now f) c w.
Proof. reflexivity. Qed.

Lemma run_unfold build now c w :
  run build now c w
  = dispatch build now (exec build now (15 + length (queue (mgr w)))) c w.
Proof. reflexivity. Qed.

Lemma exec_onReady_unregistered build now f l w :
  toastRef (mgr w) = None -> (1 <= f)%nat ->
  exec build now f (MgrOnReady l) w
  = Some (onMgr (set_listeners (listeners (mgr w) ++ [l])) w).
Proof.
  intros Hr Hf. apply (exec_le build now 1 f Hf).
  change (ToastManager.onReady (exec build now 0) l w = Some (onMgr (set_listeners (listeners (mgr w) ++ [l])) w)).
  unfold ToastManager.onReady. now rewrite Hr.
Qed.

Lemma mgr_present seen text ty a d w :
  mgr (present seen text ty a d w) = set_isAnimating true (mgr w).
Proof. unfold present. destruct (timer (cmp w)); reflexivity. Qed.

Lemma trace_present seen text ty a d w :
  trace (present seen text ty a d w) = trace w ++ [Presented text ty a d].
Proof. unfold present. destruct (timer (cmp w)); reflexivity. Qed.

Lemma props_present seen text ty a d w :
  props (cmp (present seen text ty a d w)) = props (cmp w).
Proof. unfold present. destruct (timer (cmp w)); reflexivity. Qed.

Lemma config_present seen text ty a d w :
  config (cmp (present seen text ty a d w)) = mkConfig (Some text) (Some ty) true d a.
Proof. unfold present. destruct (timer (cmp w)); reflexivity. Qed.

Lemma exec_update_true build now f w :
  (2 <= f)%nat ->
  exec build now f (CmpUpdateAnimationStatus true) w = Some (mark true w).
Proof.
  intros Hf. apply (exec_le build now 2 f Hf). destruct build; reflexivity.
Qed.

Lemma exec_showToast build now f seen text ty a d w :
  blank text = false -> (3 <= f)%nat ->
  exec build now f (CmpShowToast seen text ty a d) w = Some (present seen text ty a d w).
Proof.
  intros Hb Hf. apply (exec_le build now 3 f Hf).
  change (Toast.showToast (exec build now 2) seen text ty a d w
          = Some (present seen text ty a d w)).
  unfold Toast.showToast. rewrite Hb.
  rewrite exec_update_true by lia. reflexivity.
Qed.

Lemma exec_RefShow build now f m ty o w :
  blank m = false -> (4 <= f)%nat ->
  exec build now f (RefShow m ty o) w = Some (display m ty o w).
Proof.
  intros Hb Hf. apply (exec_le build now 4 f Hf).
  change (Toast.show (exec build now 3) (driverConfig w) m ty o w
          = Some (display m ty o w)).
  unfold Toast.show. rewrite Hb.
  now rewrite exec_showToast by (assumption || lia).
Qed.

Lemma exec_drainList build now q : forall f w,
  queue (mgr w) = q -> canDrain w = true -> (length q + 5 <= f)%nat ->
  exec build now f MgrProcessQueue w = Some (drainList now q w).
Proof.
  induction q as [|r rest IH]; intros f w Hq Hc Hf.
  - destruct f as [|f]; [lia|].
    rewrite exec_unfold. unfold dispatch, ToastManager.processQueue.
    rewrite Hq. simpl. now rewrite andb_false_r.
  - destruct f as [|f]; [simpl in Hf; lia|]. simpl in Hf.
    change (ToastManager.processQueue (exec build now f) now w
            = Some (drainList now (r :: rest) w)).
    unfold ToastManager.processQueue. unfold canDrain in Hc.
    rewrite Hq. simpl length.
    change (0 <? S (length rest))%nat with true. rewrite andb_true_r, Hc.
    rewrite queue_check. simpl drainList.
    destruct (blank (message r)) eqn:Hb; simpl.
    + apply IH; [reflexivity | exact Hc | lia].
    + apply exec_RefShow; [assumption | lia].
Qed.

Lemma exec_processQueue build now f w :
  (qlen w + 5 <= f)%nat ->
  exec build now f MgrProcessQueue w = Some (drain now w).
Proof.
  intros Hf. unfold drain. destruct (canDrain w) eqn:Hc.
  - now apply exec_drainList.
  - destruct f as [|f]; [lia|].
    rewrite exec_unfold. unfold dispatch, ToastManager.processQueue.
    unfold canDrain in Hc.
    destruct (negb (isAnimating (mgr w))); simpl in *.
    + rewrite Hc. now rewrite andb_false_r.
    + reflexivity.
Qed.

Lemma run_processQueue build now w :
  run build now MgrProcessQueue w = Some (drain now w).
Proof. apply exec_processQueue. unfold enough, qlen. lia. Qed.

Lemma drain_empty now w : queue (mgr w) = [] -> drain now w = w.
Proof. intros H. unfold drain. rewrite H. now destruct (canDrain w). Qed.

Lemma drain_head now r rest w :
  toastRef (mgr w) <> None -> isAnimating (mgr w) = false ->
  queue (mgr w) = r :: rest -> valid r ->
  drain now w = admission now r (onMgr (set_queue rest) w).
Proof.
  intros Hr Hi Hq Hv. unfold drain, canDrain. rewrite Hi, Hq.
  destruct (toastRef (mgr w)); [|congruence].
  simpl. unfold valid in Hv. now rewrite Hv.
Qed.

Lemma drain_busy now w : isAnimating (mgr w) = true -> drain now w = w.
Proof. intros H. unfold drain, canDrain. now rewrite H. Qed.

Lemma drain_unregistered now w : toastRef (mgr w) = None -> drain now w = w.
Proof.
  intros H. unfold drain, canDrain. rewrite H. now rewrite andb_false_r.
Qed.

Lemma mgr_admission now r w :
  mgr (admission now r w)
  = mkManager (toastRef (mgr w)) (listeners (mgr w)) true (queue (mgr w)) now.
Proof. unfold admission, display. now rewrite mgr_present. Qed.

Lemma trace_admission now r w :
  trace (admission now r w) = trace w ++ [presented (props (cmp w)) r].
Proof. unfold admission, display. now rewrite trace_present. Qed.

Lemma props_admission now r w : props (cmp (admission now r w)) = props (cmp w).
Proof. unfold admission, display. now rewrite props_present. Qed.

Lemma exec_Invoke_manager build now f callback w :
  (qlen w + 6 <= f)%nat ->
  exec build now f (Invoke (managerCallback callback)) w
  = Some (drain now (released callback w)).
Proof.
  intros Hf. destruct f as [|f]; [lia|].
  change (ToastManager.hideCallback (exec build now f) callback w
          = Some (drain now (released callback w))).
  unfold ToastManager.hideCallback.
  apply exec_processQueue. destruct callback; unfold qlen in *; simpl; lia.
Qed.

Lemma releases_in_order build (times : list Z) : forall w,
  toastRef (mgr w) <> None -> Forall valid (queue (mgr w)) ->
  exists w',
    runAll build (releases times) w = Some w'
    /\ trace w' = trace w
         ++ map (presented (props (cmp w))) (firstn (length times) (queue (mgr w)))
    /\ queue (mgr w') = skipn (length times) (queue (mgr w)).
Proof.
  induction times as [|t times IH]; intros w Href Hq.
  - exists w. simpl. now rewrite app_nil_r.
  - simpl runAll. unfold run.
    rewrite exec_Invoke_manager by (unfold enough, qlen; lia).
    simpl. unfold drain, canDrain, released. simpl.
    destruct (toastRef (mgr w)) as [ref|] eqn:Eref; [|congruence]. simpl.
    destruct (queue (mgr w)) as [|r rest] eqn:Eq.
    + simpl drainList.
      destruct (IH (onMgr (set_isAnimating false) w)) as (w' & Hr & Ht & Hq');
        [simpl; rewrite Eref; discriminate | simpl; rewrite Eq; constructor|].
      exists w'. split; [exact Hr|]. simpl in Ht, Hq'. rewrite Eq in Ht, Hq'.
      rewrite firstn_nil in Ht. rewrite skipn_nil in Hq'. simpl. now split.
    + inversion Hq as [|? ? Hr Hrest]; subst. unfold valid in Hr.
      simpl drainList. rewrite Hr.
      set (w1 := admission t r _).
      destruct (IH w1) as (w' & Hrun & Ht & Hq').
      * unfold w1. rewrite mgr_admission. simpl. rewrite Eref. discriminate.
      * unfold w1. rewrite mgr_admission. simpl. exact Hrest.
      * exists w'. split; [exact Hrun|].
        unfold w1 in Ht, Hq'. rewrite trace_admission, props_admission, mgr_admission in Ht.
        rewrite mgr_admission in Hq'. simpl in Ht, Hq'. simpl.
        rewrite Ht, <- app_assoc. now split.
Qed.

(** C4.  [processQueue] serves the queue first in, first out: with the
    manager idle, a driver registered and a queue [r :: rest], the oldest
    entry [r] is removed; if its message is blank the drain goes on with
    the rest of the queue; otherwise [isAnimating] becomes true,
    [lastToastTime] becomes the current time, [r] is displayed and the rest
    stays queued.  Hence, over successive busy-releases, the entries are
    displayed in the order they were queued in. *)
Theorem processQueue_fifo (build : Build) (now : Z) (w : World)
    (r : Request) (rest : list Request) :
  isAnimating (mgr w) = false ->
  toastRef (mgr w) <> None ->
  queue (mgr w) = r :: rest ->
  (blank (message r) = true ->
     run build now MgrProcessQueue w
     = run build now MgrProcessQueue (onMgr (set_queue rest) w))
  /\ (blank (message r) = false ->
        exists w',
          run build now MgrProcessQueue w = Some w'
          /\ isAnimating (mgr w') = true
          /\ lastToastTime (mgr w') = now
          /\ queue (mgr w') = rest
          /\ trace w' = trace w ++ [presented (props (cmp w)) r])
  /\ (forall times : list Z,
        Forall valid (r :: rest) ->
        exists w',
          runAll build (releases times) w = Some w'
          /\ trace w' = trace w
               ++ map (presented (props (cmp w)))
                      (firstn (length times) (r :: rest))
          /\ queue (mgr w') = skipn (length times) (r :: rest)).
Proof.
  intros Hidle Href Hq.
  assert (Hc : canDrain w = true).
  { unfold canDrain. rewrite Hidle.
    destruct (toastRef (mgr w)); [reflexivity | congruence]. }
  split; [|split].
  - intros Hb. rewrite !run_processQueue. f_equal.
    unfold drain. rewrite Hc.
    replace (canDrain (onMgr (set_queue rest) w)) with true by (symmetry; exact Hc).
    rewrite Hq. simpl. now rewrite Hb.
  - intros Hb. rewrite run_processQueue. eexists. split; [reflexivity|].
    unfold drain. rewrite Hc, Hq. simpl. rewrite Hb.
    rewrite mgr_admission, trace_admission. simpl. repeat split.
  - intros times Hv. rewrite <- Hq in *. now apply releases_in_order.
Qed.

Lemma processQueue_fifo_witness :
  exists w',
    runAll monolith (releases [5000; 9000]) waitingAB = Some w'
    /\ trace w' = [Presented (js "A") info 400 4000;
                   Presented (js "B") success 400 4000]
    /\ queue (mgr w') = [].
Proof.
  destruct (processQueue_fifo monolith 5000 waitingAB
              (mkRequest (js "A") info None) [mkRequest (js "B") success None])
    as (_ & _ & H).
  - reflexivity.
  - discriminate.
  - reflexivity.
  - apply (H [5000; 9000]). repeat constructor.
Defined.

(** ** [show] *)

Lemma show_modular_rejected now m ty o w :
  blank m = true \/ busy w \/ throttled now w ->
  run modular now (MgrShow m ty o) w = Some w.
Proof.
  intros H. rewrite run_unfold. unfold dispatch, Modular.show.
  destruct (blank m); [reflexivity|].
  destruct H as [H | [H | H]]; [discriminate | |].
  - unfold busy in H. rewrite H. now rewrite orb_true_r.
  - unfold throttled in H. apply Z.ltb_lt in H. now rewrite H.
Qed.

Lemma show_monolith_queued now m ty o w :
  blank m = false -> busy w \/ throttled now w ->
  exists w',
    run monolith now (MgrShow m ty o) w = Some w'
    /\ trace w' = trace w
    /\ cmp w' = cmp w
    /\ isAnimating (mgr w') = isAnimating (mgr w)
    /\ lastToastTime (mgr w') = lastToastTime (mgr w)
    /\ toastRef (mgr w') = toastRef (mgr w)
    /\ queue (mgr w')
       = if (length (queue (mgr w)) <? MAX_QUEUE_SIZE)%nat
         then queue (mgr w) ++ [mkRequest m (typeDefault ty) o]
         else queue (mgr w).
Proof.
  intros Hb H. rewrite run_unfold. unfold dispatch, Monolith.show.
  rewrite valid_not_blank, Hb. simpl.
  destruct (now - lastToastTime (mgr w) <? THROTTLE_DELAY) eqn:Ht.
  - destruct (length (queue (mgr w)) <? MAX_QUEUE_SIZE)%nat;
      eexists; split; try reflexivity; simpl; repeat split; congruence.
  - destruct H as [H | H];
      [| unfold throttled in H; apply Z.ltb_lt in H; congruence].
    unfold busy in H. rewrite H.
    destruct (length (queue (mgr w)) <? MAX_QUEUE_SIZE)%nat.
    + destruct (toastRef (mgr w)) eqn:Er; simpl.
      * eexists; split; [reflexivity|]. simpl. rewrite Er. repeat split; congruence.
      * rewrite exec_onReady_unregistered by (assumption || lia).
        eexists; split; [reflexivity|]. simpl. rewrite Er. repeat split; congruence.
    + destruct (toastRef (mgr w)) eqn:Er; eexists; split; try reflexivity;
        simpl; repeat split; congruence.
Qed.

(** What one [show] can do, in either build. *)
Lemma show_step build now m ty o w :
  exists w',
    run build now (MgrShow m ty o) w = Some w'
    /\ ((isAnimating (mgr w) = false /\ isAnimating (mgr w') = true
         /\ (exists e, trace w' = trace w ++ [e])
         /\ queue (mgr w') = queue (mgr w))
        \/ (trace w' = trace w
            /\ isAnimating (mgr w') = isAnimating (mgr w)
            /\ (queue (mgr w') = queue (mgr w)
                \/ ((length (queue (mgr w)) < 2)%nat
                    /\ exists r, queue (mgr w') = queue (mgr w) ++ [r])))).
Proof.
  destruct (blank m) eqn:Hb.
  { exists w. split; [|right; auto].
    destruct build.
    - rewrite run_unfold. unfold dispatch, Monolith.show.
      now rewrite valid_not_blank, Hb.
    - apply show_modular_rejected. now left. }
  destruct build.
  - destruct (Z.ltb_spec (now - lastToastTime (mgr w)) THROTTLE_DELAY) as [Ht|Ht];
      [| destruct (isAnimating (mgr w)) eqn:Ha].
    1,2: destruct (show_monolith_queued now m ty o w Hb) as (w' & Hr & Htr & _ & Hi & _ & _ & Hq);
      [ (now right) || (now left)
      | exists w'; split; [exact Hr|]; right; repeat split; try assumption;
        try congruence;
        rewrite Hq;
        destruct (Nat.ltb_spec (length (queue (mgr w))) MAX_QUEUE_SIZE) as [Hl|Hl];
        [ right; split; [exact Hl | eexists; reflexivity] | now left ] ].
    apply Z.ltb_ge in Ht.
    rewrite run_unfold. unfold dispatch, Monolith.show.
    rewrite valid_not_blank, Hb, Ht, Ha. simpl.
    destruct (toastRef (mgr w)) eqn:Er.
    + rewrite exec_RefShow by (assumption || lia).
      eexists; split; [reflexivity|]. left.
      unfold display. rewrite mgr_present, trace_present. simpl.
      repeat split. eexists; reflexivity.
    + destruct (Nat.ltb_spec (length (queue (mgr w))) MAX_QUEUE_SIZE) as [Hl|Hl].
      * rewrite exec_onReady_unregistered by (assumption || lia).
        eexists; split; [reflexivity|]. right. simpl. rewrite Ha.
        repeat split. right. split; [exact Hl | eexists; reflexivity].
      * eexists; split; [reflexivity|]. right. rewrite Ha. auto.
  - destruct (Z.ltb_spec (now - lastToastTime (mgr w)) THROTTLE_DELAY) as [Ht|Ht];
      [| destruct (isAnimating (mgr w)) eqn:Ha].
    1,2: exists w; split;
      [ apply show_modular_rejected; right; (now right) || (now left)
      | right; auto ].
    apply Z.ltb_ge in Ht.
    rewrite run_unfold. unfold dispatch, Modular.show.
    rewrite Hb, Ht, Ha. simpl.
    destruct (toastRef (mgr w)) eqn:Er.
    + rewrite exec_RefShow by (assumption || lia).
      eexists; split; [reflexivity|]. left.
      unfold display. rewrite mgr_present, trace_present. simpl.
      repeat split. eexists; reflexivity.
    + eexists; split; [reflexivity|]. right. simpl. rewrite Ha. auto.
Qed.

Lemma shows_bounded build (script : list (Z * Call)) :
  Forall isShow script ->
  forall w,
  exists w' new added,
    runAll build script w = Some w'
    /\ trace w' = trace w ++ new
    /\ (length new <= if isAnimating (mgr w) then 0 else 1)%nat
    /\ queue (mgr w') = queue (mgr w) ++ added
    /\ (length added <= 2 - length (queue (mgr w)))%nat.
Proof.
  induction 1 as [|[now c] script (m & ty & o & Hc) _ IH]; intros w.
  - exists w, [], []. simpl. rewrite !app_nil_r.
    repeat split; lia.
  - simpl in Hc. subst c. simpl runAll.
    destruct (show_step build now m ty o w) as (w1 & Hr & Hcase).
    rewrite Hr. cbn [bind].
    destruct (IH w1) as (w' & new & added & Hrun & Ht & Hn & Hq & Ha).
    destruct Hcase as [(Ha0 & Ha1 & (e & Htr) & Hq1)
                      | (Htr & Hi & [Hq1 | (Hl & r & Hq1)])].
    + exists w', (e :: new), added. rewrite Ha1 in Hn.
      destruct new; [|simpl in Hn; lia].
      rewrite Ha0. rewrite Ht, Htr, Hq, Hq1. rewrite Hq1 in Ha.
      rewrite app_nil_r. repeat split; auto.
    + exists w', new, added. rewrite Ht, Htr, Hq, Hq1.
      rewrite Hi in Hn. rewrite Hq1 in Ha. repeat split; auto.
    + exists w', new, (r :: added). rewrite Ht, Htr, Hq, Hq1.
      rewrite Hi in Hn. rewrite Hq1, length_app in Ha.
      change (length [r]) with 1%nat in Ha.
      rewrite <- app_assoc. change ([r] ++ added) with (r :: added).
      change (length (r :: added)) with (S (length added)).
      repeat split; auto; lia.
Qed.

(** C1, as stated, fails on the manager of [managers/ToastManager.ts]:
    ["B"] arrives 100 ms after ["A"] was admitted, while the manager is
    busy and the queue is empty; it is not appended to the queue, the call
    changes nothing. *)
Lemma show_busy_modular_not_queued :
  exists w,
    runAll modular registerAndShowA (initialWorld noProps) = Some w
    /\ isAnimating (mgr w) = true
    /\ 1000100 - lastToastTime (mgr w) < THROTTLE_DELAY
    /\ (length (queue (mgr w)) < MAX_QUEUE_SIZE)%nat
    /\ blank (js "B") = false
    /\ run modular 1000100 (MgrShow (js "B") None None) w = Some w
    /\ queue (mgr w) <> queue (mgr w) ++ [mkRequest (js "B") info None].
Proof.
  eexists. split; [vm_compute; reflexivity|].
  vm_compute. repeat split; try discriminate; auto.
Qed.

(** C1, amended.  A [show] with a message that is not blank, arriving while
    [isAnimating] is true or less than 300 ms after [lastToastTime], is
    never displayed by that call.  The manager of [src/Toast.tsx] appends
    it to the queue if the queue holds fewer than 2 entries and drops it
    otherwise; the manager of [managers/ToastManager.ts] always drops it
    and changes nothing.  In both, of any sequence of [show] calls at most
    one is displayed by its call and at most 2 are queued. *)
Theorem show_busy_or_throttled (now : Z) (m : jsstring)
    (ty : option ToastType) (o : option ToastOptions) (w : World) :
  blank m = false ->
  busy w \/ throttled now w ->
  (exists w',
     run monolith now (MgrShow m ty o) w = Some w'
     /\ trace w' = trace w
     /\ cmp w' = cmp w
     /\ isAnimating (mgr w') = isAnimating (mgr w)
     /\ lastToastTime (mgr w') = lastToastTime (mgr w)
     /\ toastRef (mgr w') = toastRef (mgr w)
     /\ queue (mgr w')
        = if (length (queue (mgr w)) <? MAX_QUEUE_SIZE)%nat
          then queue (mgr w) ++ [mkRequest m (typeDefault ty) o]
          else queue (mgr w))
  /\ run modular now (MgrShow m ty o) w = Some w
  /\ (forall build script w0,
        Forall isShow script ->
        exists w' new added,
          runAll build script w0 = Some w'
          /\ trace w' = trace w0 ++ new /\ (length new <= 1)%nat
          /\ queue (mgr w') = queue (mgr w0) ++ added
          /\ (length added <= 2)%nat).
Proof.
  intros Hb H. split; [|split].
  - now apply show_monolith_queued.
  - apply show_modular_rejected. now right.
  - intros build script w0 Hs.
    destruct (shows_bounded build script Hs w0)
      as (w' & new & added & Hr & Ht & Hn & Hq & Ha).
    exists w', new, added. repeat split; try assumption; try lia.
    destruct (isAnimating (mgr w0)); lia.
Qed.

Lemma show_busy_or_throttled_witness :
  exists w',
    run monolith 1000100 (MgrShow (js "B") None None) showingA = Some w'
    /\ trace w' = [Presented (js "A") info 400 4000]
    /\ queue (mgr w') = [mkRequest (js "B") info None].
Proof.
  destruct (show_busy_or_throttled 1000100 (js "B") None None showingA)
    as ((w' & Hr & Ht & _ & _ & _ & _ & Hq) & _).
  - reflexivity.
  - left. reflexivity.
  - exists w'. repeat split; assumption.
Defined.

(** ** C9: the split manager without a driver *)

(** C9.  In the manager of [managers/ToastManager.ts], a [show] with a
    message that is not blank, neither throttled nor busy, with no driver
    registered, displays nothing and queues nothing, and still sets
    [lastToastTime] to the current time; so every [show] in the next
    300 ms is rejected by the throttle check, whether a driver has been
    registered in between or not. *)
Theorem show_without_driver_starts_cooldown (now : Z) (m : jsstring)
    (ty : option ToastType) (o : option ToastOptions) (w : World) :
  blank m = false ->
  toastRef (mgr w) = None ->
  isAnimating (mgr w) = false ->
  THROTTLE_DELAY <= now - lastToastTime (mgr w) ->
  let w1 := onMgr (set_lastToastTime now) w in
  run modular now (MgrShow m ty o) w = Some w1
  /\ trace w1 = trace w
  /\ queue (mgr w1) = queue (mgr w)
  /\ forall now' ref m' ty' o',
       now' - now < THROTTLE_DELAY ->
       let w2 := onMgr (set_toastRef ref) w1 in
       run modular now' (MgrSetToastRef ref) w1 = Some w2
       /\ run modular now' (MgrShow m' ty' o') w2 = Some w2.
Proof.
  intros Hb Hr Ha Ht w1. split; [|split; [|split]]; try reflexivity.
  - rewrite run_unfold. unfold dispatch, Modular.show.
    rewrite Hb, Ha. apply Z.ltb_ge in Ht. rewrite Ht. simpl. now rewrite Hr.
  - intros now' ref m' ty' o' Hn w2. split; [reflexivity|].
    apply show_modular_rejected. right. right. exact Hn.
Qed.

Lemma show_without_driver_starts_cooldown_witness :
  run modular 1000000 (MgrShow (js "A") None None) (initialWorld noProps)
  = Some (onMgr (set_lastToastTime 1000000) (initialWorld noProps))
  /\ run modular 1000200 (MgrShow (js "B") None None)
       (onMgr (set_toastRef (Some refObject))
          (onMgr (set_lastToastTime 1000000) (initialWorld noProps)))
     = Some (onMgr (set_toastRef (Some refObject))
               (onMgr (set_lastToastTime 1000000) (initialWorld noProps))).
Proof.
  destruct (show_without_driver_starts_cooldown 1000000 (js "A") None None
              (initialWorld noProps)) as (H1 & _ & _ & H2).
  - reflexivity.
  - reflexivity.
  - reflexivity.
  - vm_compute. discriminate.
  - split; [exact H1|].
    apply (H2 1000200 (Some refObject) (js "B") None None). reflexivity.
Defined.

(** ** Admission, and C10: durations of zero *)

Lemma exec_show_accepted build now f m ty o w :
  blank m = false ->
  toastRef (mgr w) <> None ->
  isAnimating (mgr w) = false ->
  THROTTLE_DELAY <= now - lastToastTime (mgr w) ->
  (5 <= f)%nat ->
  exec build now f (MgrShow m ty o) w
  = Some (admission now (mkRequest m (typeDefault ty) o) w).
Proof.
  intros Hb Hr Ha Ht Hf. apply Z.ltb_ge in Ht.
  destruct f as [|f]; [lia|]. rewrite exec_unfold. unfold dispatch.
  destruct (toastRef (mgr w)) as [ref|] eqn:Er; [|congruence].
  destruct build.
  - unfold Monolith.show. rewrite valid_not_blank, Hb, Ht, Er, Ha. simpl.
    now rewrite exec_RefShow by (assumption || lia).
  - unfold Modular.show. rewrite Hb, Ht, Ha. simpl. rewrite Er.
    now rewrite exec_RefShow by (assumption || lia).
Qed.

Lemma exec_hook_show build now f m ty o w :
  blank m = false ->
  exec build now (S f) (HookShowToast m ty o) w
  = exec build now f (MgrShow m (Some (typeDefault ty)) o) w.
Proof.
  intros Hb. rewrite exec_unfold. unfold dispatch, UseToast.showToast.
  now rewrite Hb.
Qed.

Lemma exec_RefShow_options build now f m ty o1 o2 w :
  (forall p, resolveAnimationDuration o1 p = resolveAnimationDuration o2 p) ->
  (forall p, resolveDuration o1 p = resolveDuration o2 p) ->
  exec build now f (RefShow m ty o1) w = exec build now f (RefShow m ty o2) w.
Proof.
  intros Ha Hd. destruct f as [|f]; [reflexivity|].
  rewrite !exec_unfold. unfold dispatch, Toast.show.
  destruct (blank m); [reflexivity|].
  fold (resolveAnimationDuration o1 (props (cmp w))).
  fold (resolveAnimationDuration o2 (props (cmp w))).
  fold (resolveDuration o1 (props (cmp w))).
  fold (resolveDuration o2 (props (cmp w))).
  now rewrite Ha, Hd.
Qed.

(** C10.  A [duration] or an [animationDuration] of 0 in the options is
    treated as if it were omitted: the component takes the mount defaults
    instead (4000 ms and 400 ms when the mount gives none).  This holds at
    the component's [show], and through the hook for a request that is
    admitted. *)
Theorem zero_durations_fall_back (build : Build) (now : Z) (w : World)
    (m : jsstring) (ty : ToastType) (d a : option Z) :
  (forall f,
     exec build now f (RefShow m ty (Some (mkOptions (Some 0) a))) w
     = exec build now f (RefShow m ty (Some (mkOptions None a))) w)
  /\ (forall f,
        exec build now f (RefShow m ty (Some (mkOptions d (Some 0)))) w
        = exec build now f (RefShow m ty (Some (mkOptions d None))) w)
  /\ (forall f,
        exec build now f (RefShow m ty (Some (mkOptions None None))) w
        = exec build now f (RefShow m ty None) w)
  /\ (blank m = false ->
      toastRef (mgr w) <> None ->
      isAnimating (mgr w) = false ->
      THROTTLE_DELAY <= now - lastToastTime (mgr w) ->
      exists w',
        run build now
          (HookShowToast m (Some ty) (Some (mkOptions (Some 0) (Some 0)))) w
        = Some w'
        /\ run build now (HookShowToast m (Some ty) None) w = Some w'
        /\ trace w'
           = trace w
             ++ [Presented m ty
                   (propDefault (defaultAnimationDuration (props (cmp w))) 400)
                   (propDefault (defaultDuration (props (cmp w))) 4000)]).
Proof.
  repeat split.
  - intros f. now apply exec_RefShow_options.
  - intros f. now apply exec_RefShow_options.
  - intros f. now apply exec_RefShow_options.
  - intros Hb Hr Ha Ht.
    exists (admission now (mkRequest m ty None) w). unfold run, enough.
    change (16 + length (queue (mgr w)))%nat
      with (S (15 + length (queue (mgr w)))).
    rewrite !exec_hook_show by assumption.
    rewrite !exec_show_accepted by (assumption || lia).
    repeat split.
    now rewrite trace_admission.
Qed.

Lemma zero_durations_fall_back_witness :
  exists w',
    run modular 1000000
      (HookShowToast (js "A") (Some info) (Some (mkOptions (Some 0) (Some 0))))
      idle = Some w'
    /\ trace w' = [Presented (js "A") info 400 4000].
Proof.
  destruct (zero_durations_fall_back modular 1000000 idle (js "A") info None None)
    as (_ & _ & _ & H).
  destruct H as (w' & H1 & _ & H2).
  - reflexivity.
  - discriminate.
  - reflexivity.
  - vm_compute. discriminate.
  - exists w'. split; assumption.
Defined.

(** ** Invariants of the queue *)

Lemma forEach_inv {A} (I : World -> Prop) (f : A -> World -> option World)
    (l : list A) :
  (forall a w w', f a w = Some w' -> I w -> I w') ->
  forall w w', forEach f l w = Some w' -> I w -> I w'.
Proof.
  intros Hf. induction l as [|a l IH]; simpl; intros w w' H Hw.
  - now injection H as <-.
  - destruct (f a w) as [w1|] eqn:E; simpl in H; [|discriminate].
    eapply IH; [exact H|]. eapply Hf; eassumption.
Qed.

Ltac exec_cases H c build :=
  rewrite exec_unfold in H; unfold dispatch in H;
  destruct c; destruct build; unfold_calls; simpl in *;
  repeat (first [ discriminate | split_match H ]);
  repeat match goal with
         | E : Some _ = Some _ |- _ => injection E as <-
         end;
  simpl in *.

Section QueueInvariant.
Variable P : list Request -> Prop.
Variable build : Build.
Variable now : Z.
Hypothesis P_tail : forall r q, P (r :: q) -> P q.
Hypothesis P_push :
  build = monolith ->
  forall q r, P q -> valid r -> (length q < MAX_QUEUE_SIZE)%nat -> P (q ++ [r]).

Lemma exec_queue_inv (f : nat) :
  forall c w w', exec build now f c w = Some w' ->
                 P (queue (mgr w)) -> P (queue (mgr w')).
Proof.
  induction f as [|f IH]; intros c w w' H Hw; [discriminate|].
  exec_cases H c build;
    try match goal with
        | E : forEach _ _ _ = Some _ |- _ =>
            pose proof (forEach_inv (fun w => P (queue (mgr w))) _ _
                          (fun a w w' E' => IH _ _ _ E') _ _ E Hw)
        end;
    repeat match goal with
           | E : exec _ _ _ _ _ = Some ?w2 |- P (queue (mgr ?w2)) =>
               apply (IH _ _ _ E); simpl
           | |- context [match ?e with _ => _ end] => destruct e; simpl
           end;
    try assumption;
    try (eapply P_tail; eassumption);
    try match goal with
        | E : queue ?m = _ |- P (queue ?m) => now rewrite E
        end;
    try (unfold ToastManager.push; simpl; apply P_push;
         [ reflexivity | assumption
         | unfold valid; simpl; rewrite ?valid_not_blank in *;
           destruct (blank _); simpl in *; congruence
         | apply Nat.ltb_lt; assumption ]).
Qed.
End QueueInvariant.

Lemma run_queueOk build now c w w' :
  queueOk w -> run build now c w = Some w' -> queueOk w'.
Proof.
  intros Hw H. unfold run in H.
  refine (exec_queue_inv
            (fun q => (length q <= MAX_QUEUE_SIZE)%nat /\ Forall valid q)
            build now _ _ _ _ _ _ H Hw).
  - intros r q [Hl Hv]. simpl in Hl. split; [lia|]. now inversion Hv.
  - intros _ q r [Hl Hv] Hr Hlt. split.
    + rewrite length_app. simpl. lia.
    + apply Forall_app. split; [assumption | now constructor].
Qed.

Lemma reachable_queueOk build p w : reachable build p w -> queueOk w.
Proof.
  induction 1 as [|w now c w' _ IH _ Hrun].
  - split; [simpl; lia | constructor].
  - eapply run_queueOk; eassumption.
Qed.

(** C5.  In every reachable state the queue holds at most 2 entries, none
    of them with a blank message; every call preserves this, the public
    operations ([show], [setToastRef], [setAnimating], [hide], the hook,
    the component's handle, timers and animation completions) included. *)
Theorem queue_invariant (build : Build) (p : ToastComponentProps) :
  (forall w, reachable build p w -> queueOk w)
  /\ (forall now c w w',
        queueOk w -> run build now c w = Some w' -> queueOk w').
Proof.
  split.
  - apply reachable_queueOk.
  - intros now c w w' Hw H. eapply run_queueOk; eassumption.
Qed.

Lemma reachable_runAll build p (script : list (Z * Call)) :
  forallb (fun tc => public (snd tc)) script = true ->
  forall w w', reachable build p w -> runAll build script w = Some w' ->
               reachable build p w'.
Proof.
  induction script as [|[now c] script IH]; simpl; intros Hp w w' Hw H.
  - now injection H as <-.
  - apply andb_prop in Hp as [Hc Hp].
    destruct (run build now c w) as [w1|] eqn:E; simpl in H; [|discriminate].
    eapply IH; [exact Hp | | exact H].
    eapply reachable_step; eassumption.
Qed.

Lemma queue_invariant_witness :
  exists w,
    runAll monolith burst (initialWorld noProps) = Some w
    /\ map message (queue (mgr w)) = [js "B"; js "C"]
    /\ queueOk w.
Proof.
  eexists. split; [vm_compute; reflexivity|].
  split; [reflexivity|].
  apply (proj1 (queue_invariant monolith noProps)).
  eapply (reachable_runAll monolith noProps burst);
    [reflexivity | apply reachable_init | vm_compute; reflexivity].
Defined.

(** In the split build nothing is ever queued. *)
Lemma modular_queue_empty p w : reachable modular p w -> queue (mgr w) = [].
Proof.
  induction 1 as [|w now c w' _ IH _ Hrun]; [reflexivity|].
  unfold run in Hrun.
  refine (exec_queue_inv (fun q => q = []) modular now _ _ _ _ _ _ Hrun IH).
  - discriminate.
  - discriminate.
Qed.

(** ** Timer ids are fresh *)

Lemma fresh_clearTimeout id k : freshTimers k -> freshTimers (clearTimeout id k).
Proof.
  unfold freshTimers, clearTimeout. simpl. intros H.
  apply Forall_forall. intros t Ht. apply filter_In in Ht as [Ht _].
  revert t Ht. now apply Forall_forall.
Qed.

Lemma fresh_setTimeout task d k :
  freshTimers k -> freshTimers (fst (setTimeout task d k)).
Proof.
  unfold freshTimers, setTimeout. simpl. intros H.
  apply Forall_app. split.
  - eapply Forall_impl; [|exact H]. simpl. intros; lia.
  - constructor; [simpl; lia | constructor].
Qed.

Lemma fresh_set_shared v s k : freshTimers k -> freshTimers (set_shared v s k).
Proof. destruct v; exact (fun H => H). Qed.

Lemma fresh_set_timer t k : freshTimers k -> freshTimers (set_timer t k).
Proof. exact (fun H => H). Qed.

Lemma fresh_set_config c k : freshTimers k -> freshTimers (set_config c k).
Proof. exact (fun H => H). Qed.

Lemma fresh_set_isAnimatingRef b k :
  freshTimers k -> freshTimers (set_isAnimatingRef b k).
Proof. exact (fun H => H). Qed.

Ltac fresh_steps :=
  repeat first
    [ assumption
    | apply fresh_set_timer
    | apply fresh_set_config
    | apply fresh_set_isAnimatingRef
    | apply fresh_set_shared
    | apply fresh_clearTimeout
    | apply fresh_setTimeout ].

Lemma exec_freshTimers build now (f : nat) :
  forall c w w', exec build now f c w = Some w' ->
                 freshTimers (cmp w) -> freshTimers (cmp w').
Proof.
  induction f as [|f IH]; intros c w w' H Hw; [discriminate|].
  rewrite exec_unfold in H; unfold dispatch in H.
  destruct c; destruct build; unfold_calls;
    cbn [bind onCmp onMgr emit cmp mgr ToastManager.push] in *;
    repeat (first [ discriminate
                  | match type of H with
                    | context [bind ?e _] =>
                        let E := fresh "E" in
                        destruct e eqn:E; cbn [bind] in H; [|discriminate H]
                    | context [match ?e with _ => _ end] =>
                        let E := fresh "E" in destruct e eqn:E
                    | context [if ?e then _ else _] =>
                        let E := fresh "E" in destruct e eqn:E
                    end ]);
    repeat match goal with
           | E : Some _ = Some _ |- _ => injection E as <-
           end;
    cbn [bind onCmp onMgr emit cmp mgr] in *;
    try match goal with
        | E : forEach _ _ _ = Some _ |- _ =>
            pose proof (forEach_inv (fun w => freshTimers (cmp w)) _ _
                          (fun a w w' E' => IH _ _ _ E') _ _ E Hw)
        end;
    repeat match goal with
           | E : exec _ _ _ _ ?w1 = Some ?w2 |- freshTimers (cmp ?w2) =>
               apply (IH _ _ _ E); cbn [bind onCmp onMgr emit cmp mgr]
           | |- freshTimers (cmp (match ?e with _ => _ end)) =>
               destruct e; cbn [bind onCmp onMgr emit cmp mgr]
           | |- freshTimers (let (_, _) := setTimeout ?t ?d ?k in _) =>
               change (freshTimers (set_timer (Some (nextTimerId k))
                                      (fst (setTimeout t d k))))
           | |- freshTimers (Toast.resetConfig _) => unfold Toast.resetConfig
           | |- freshTimers (animate _ _ _) => unfold animate
           | |- freshTimers (assign _ _ _) => unfold assign
           | |- freshTimers (cancelAnimation _ _) => unfold cancelAnimation
           | _ => progress fresh_steps
           end.
Qed.

Lemma reachable_freshTimers build p w :
  reachable build p w -> freshTimers (cmp w).
Proof.
  induction 1 as [|w now c w' _ IH _ Hrun]; [constructor|].
  eapply exec_freshTimers; eassumption.
Qed.

(** ** Fuel beyond the rank is immaterial *)

Lemma exec_plus build now k n c w :
  exec build now (S k + n) c w = dispatch build now (exec build now (k + n)) c w.
Proof. reflexivity. Qed.

Lemma enough_rank c w : (rank c w <= enough w)%nat.
Proof.
  unfold enough. fold (qlen w).
  destruct c; simpl;
    repeat match goal with
           | |- context [if ?e then _ else _] => destruct e
           end; lia.
Qed.

Lemma exec_enough build now f c w :
  (rank c w <= f)%nat -> exec build now f c w = run build now c w.
Proof.
  intros Hf. unfold run.
  destruct (exec_rank build now f c w Hf) as [w1 H1].
  destruct (exec_rank build now (enough w) c w (enough_rank c w)) as [w2 H2].
  destruct (Nat.le_ge_cases f (enough w)) as [Hle | Hle].
  - rewrite (exec_le build now _ _ Hle c w w1 H1). exact H1.
  - rewrite H2. exact (exec_le build now _ _ Hle c w w2 H2).
Qed.

(** ** Dismissing while nothing is shown (C7) *)

Lemma exec_hideToast_hidden build now f seen cb w :
  hidden w ->
  exec build now (S f) (CmpHideToast seen cb) w
  = match cb with
    | Some cb => exec build now f (Invoke cb) w
    | None => Some w
    end.
Proof.
  intros [Ha Hy]. rewrite exec_unfold. unfold dispatch, Toast.hideToast.
  rewrite Ha, Hy. reflexivity.
Qed.

(** C7, as stated, fails when no driver is registered: [hide] of the
    manager then returns at once and the callback (here number 7) is never
    invoked. *)
Lemma hide_without_driver_never_calls_back :
  hidden (initialWorld noProps)
  /\ toastRef (mgr (initialWorld noProps)) = None
  /\ run modular 5000 (MgrHide (Some 7%nat)) (initialWorld noProps)
     = Some (initialWorld noProps)
  /\ run modular 5000 (HookHideToast (Some 7%nat)) (initialWorld noProps)
     = Some (initialWorld noProps)
  /\ ~ In (Called 7%nat) (trace (initialWorld noProps)).
Proof.
  repeat split. intros [].
Qed.

(** C7, amended.  While nothing is shown ([isAnimating.current] false and
    [transY] at -100): the component's [hide] invokes the given callback
    at once, exactly once, and changes nothing else; [hide] of the manager
    of [managers/ToastManager.ts] (and the hook's [hideToast]) does the
    same when a driver is registered, besides setting [isAnimating] to
    false; when no driver is registered, [hide] of the manager does nothing
    and the callback is not invoked. *)
Theorem hide_while_hidden (build : Build) (p : ToastComponentProps) (now : Z)
    (w : World) (c : CallbackId) :
  hidden w ->
  run build now (RefHide (Some (userCallback c))) w = Some (emit (Called c) w)
  /\ (reachable modular p w -> toastRef (mgr w) <> None ->
      run modular now (MgrHide (Some c)) w
      = Some (emit (Called c) (onMgr (set_isAnimating false) w))
      /\ run modular now (HookHideToast (Some c)) w
         = Some (emit (Called c) (onMgr (set_isAnimating false) w)))
  /\ (toastRef (mgr w) = None ->
      run build now (MgrHide (Some c)) w = Some w
      /\ run build now (HookHideToast (Some c)) w = Some w).
Proof.
  intros Hh. split; [|split].
  - unfold run, enough. rewrite exec_plus. unfold dispatch.
    rewrite exec_plus. unfold dispatch, Toast.hideToast.
    destruct Hh as [Ha Hy]. rewrite Ha, Hy. reflexivity.
  - intros Hr Href. apply modular_queue_empty in Hr.
    assert (Hm : run modular now (MgrHide (Some c)) w
                 = Some (emit (Called c) (onMgr (set_isAnimating false) w))).
    { unfold run, enough. rewrite exec_plus. unfold dispatch, ToastManager.hide.
      destruct (toastRef (mgr w)); [|congruence].
      rewrite exec_plus. unfold dispatch.
      rewrite exec_plus. unfold dispatch, Toast.hideToast.
      destruct Hh as [Ha Hy]. rewrite Ha, Hy. simpl.
      rewrite exec_Invoke_manager by (unfold qlen; lia).
      unfold drain, released. simpl. rewrite Hr.
      now destruct (canDrain _). }
    split; [exact Hm|].
    rewrite <- Hm. unfold run at 1. unfold enough. rewrite exec_plus.
    unfold dispatch, UseToast.hideToast.
    apply exec_enough. simpl. unfold qlen. lia.
  - intros Href.
    assert (Hm : run build now (MgrHide (Some c)) w = Some w).
    { unfold run, enough. rewrite exec_plus. unfold dispatch, ToastManager.hide.
      now rewrite Href. }
    split; [exact Hm|].
    rewrite <- Hm. unfold run at 1. unfold enough. rewrite exec_plus.
    unfold dispatch, UseToast.hideToast.
    apply exec_enough. simpl. unfold qlen. lia.
Qed.

Lemma reachable_idle : reachable modular noProps idle.
Proof.
  apply (reachable_step modular noProps
           (mkWorld (mkManager None [] false [] 1000) (initialComponent noProps) [])
           0 (MgrSetToastRef (Some refObject)));
    [| reflexivity | reflexivity].
  apply (reachable_step modular noProps (initialWorld noProps)
           1000 (MgrShow (js "x") None None));
    [apply reachable_init | reflexivity | reflexivity].
Qed.

Lemma hide_while_hidden_witness :
  run modular 5000 (MgrHide (Some 7%nat)) idle
  = Some (emit (Called 7%nat) (onMgr (set_isAnimating false) idle)).
Proof.
  destruct (hide_while_hidden modular noProps 5000 idle 7%nat) as (_ & H & _).
  - split; reflexivity.
  - apply H; [exact reachable_idle | discriminate].
Defined.

(** ** Blank messages (C6) *)

Lemma run_update_false_modular now w :
  run modular now (CmpUpdateAnimationStatus false) w = Some (mark false w).
Proof. reflexivity. Qed.

Lemma run_update_false_monolith now w :
  run monolith now (CmpUpdateAnimationStatus false) w
  = run monolith now MgrProcessQueue (mark false w).
Proof.
  unfold run at 1. unfold enough. rewrite exec_plus.
  unfold dispatch, Toast.updateAnimationStatus.
  rewrite exec_plus. unfold dispatch, Monolith.setAnimating. simpl negb. cbv iota.
  apply exec_enough. simpl. unfold qlen. simpl. lia.
Qed.

(** C6, as stated, fails at the component's [show]: called with a
    whitespace-only message while ["A"] is on display, it sets the
    manager's [isAnimating] back to false. *)
Lemma blank_show_on_component_releases_busy :
  exists w w',
    runAll modular registerAndShowA (initialWorld noProps) = Some w
    /\ blank (js "   ") = true
    /\ isAnimating (mgr w) = true
    /\ run modular 1000050 (RefShow (js "   ") info None) w = Some w'
    /\ isAnimating (mgr w') = false.
Proof.
  eexists. eexists. split; [vm_compute; reflexivity|].
  split; [reflexivity|]. split; [reflexivity|].
  split; [vm_compute; reflexivity|]. reflexivity.
Qed.

(** C6, amended.  A call whose message is blank (empty, or whitespace
    only) never displays or queues that message.  At the hook's
    [showToast] and at the manager's [show] it changes no state at all.
    At the component's [show] and [showToast] only
    [updateAnimationStatus(false)] runs: the component's and the manager's
    animating flags are set to false.  With [managers/ToastManager.ts]
    that is the whole effect.  In [src/Toast.tsx] [setAnimating(false)]
    goes on to [processQueue], so the outcome is that of a drain started
    with both flags cleared: nothing more when the queue is empty or no
    driver is registered; otherwise the oldest queued request leaves the
    queue and is passed to the driver. *)
Theorem blank_message_rejected (build : Build) (now : Z) (w : World)
    (m : jsstring) (ty : option ToastType) (ty' : ToastType)
    (o : option ToastOptions) (seen : ToastConfig) (a d : Z) :
  blank m = true ->
  run build now (HookShowToast m ty o) w = Some w
  /\ run build now (MgrShow m ty o) w = Some w
  /\ run modular now (RefShow m ty' o) w = Some (mark false w)
  /\ run modular now (CmpShowToast seen m ty' a d) w = Some (mark false w)
  /\ run monolith now (RefShow m ty' o) w = Some (drain now (mark false w))
  /\ run monolith now (CmpShowToast seen m ty' a d) w
     = Some (drain now (mark false w))
  /\ run monolith now MgrProcessQueue (mark false w)
     = Some (drain now (mark false w))
  /\ (queue (mgr w) = [] \/ toastRef (mgr w) = None ->
      drain now (mark false w) = mark false w)
  /\ (forall r rest,
        toastRef (mgr w) <> None -> queue (mgr w) = r :: rest -> valid r ->
        drain now (mark false w)
        = admission now r (onMgr (set_queue rest) (mark false w))
        /\ trace (drain now (mark false w))
           = trace w ++ [presented (props (cmp w)) r]
        /\ queue (mgr (drain now (mark false w))) = rest
        /\ isAnimating (mgr (drain now (mark false w))) = true).
Proof.
  intros Hb.
  assert (Hshow : run monolith now (RefShow m ty' o) w
                  = Some (drain now (mark false w))).
  { rewrite run_unfold. unfold dispatch, Toast.show. rewrite Hb.
    rewrite exec_enough by (simpl; unfold qlen; lia).
    rewrite run_update_false_monolith. apply run_processQueue. }
  assert (HshowToast : run monolith now (CmpShowToast seen m ty' a d) w
                       = Some (drain now (mark false w))).
  { rewrite run_unfold. unfold dispatch, Toast.showToast. rewrite Hb.
    rewrite exec_enough by (simpl; unfold qlen; lia).
    rewrite run_update_false_monolith. apply run_processQueue. }
  split; [|split; [|split; [|split; [|split; [|split; [|split; [|split]]]]]]].
  - rewrite run_unfold. unfold dispatch, UseToast.showToast. now rewrite Hb.
  - rewrite run_unfold. unfold dispatch.
    destruct build; [unfold Monolith.show | unfold Modular.show].
    + now rewrite valid_not_blank, Hb.
    + now rewrite Hb.
  - rewrite run_unfold. unfold dispatch, Toast.show. now rewrite Hb.
  - rewrite run_unfold. unfold dispatch, Toast.showToast. now rewrite Hb.
  - exact Hshow.
  - exact HshowToast.
  - apply run_processQueue.
  - intros [Hq | Hr]; [apply drain_empty | apply drain_unregistered]; assumption.
  - intros r rest Hr Hq Hv.
    rewrite (drain_head now r rest (mark false w) Hr eq_refl Hq Hv).
    split; [reflexivity|].
    rewrite trace_admission, mgr_admission. repeat split.
Qed.

Lemma blank_message_rejected_witness :
  run modular 1000050 (MgrShow (js "   ") None None) showingA = Some showingA
  /\ run modular 1000050 (RefShow (js "   ") info None) showingA
     = Some (mark false showingA)
  /\ trace (drain 5000 (mark false waitingB)) = [Presented (js "B") info 400 4000].
Proof.
  destruct (blank_message_rejected modular 1000050 showingA (js "   ")
              None info None (mountConfig noProps) 400 4000)
    as (_ & H1 & H2 & _); [reflexivity|].
  split; [exact H1|]. split; [exact H2|].
  destruct (blank_message_rejected monolith 5000 waitingB (js "   ")
              None info None (mountConfig noProps) 400 4000)
    as (_ & _ & _ & _ & _ & _ & _ & _ & H); [reflexivity|].
  exact (proj1 (proj2 (H (mkRequest (js "B") info None) []
                         ltac:(discriminate) eq_refl eq_refl))).
Defined.

(** ** [setToastRef] (C2) *)

Lemma forEach_notify build now (ls : list Listener) : forall f w,
  (qlen w + 6 <= f)%nat ->
  forEach (fun l => exec build now f (Notify l)) ls w
  = forEach (fun l => run build now (Notify l)) ls w.
Proof.
  induction ls as [|l ls IH]; intros f w Hf; [reflexivity|].
  simpl. rewrite exec_enough by (simpl; lia).
  destruct (run build now (Notify l) w) as [w1|] eqn:E; [|reflexivity].
  simpl. apply IH. apply exec_qlen in E. simpl in E. lia.
Qed.

Lemma toastRef_drainList now q : forall w,
  toastRef (mgr (drainList now q w)) = toastRef (mgr w).
Proof.
  induction q as [|x q IH]; intros w; [reflexivity|].
  simpl. destruct (blank (message x)).
  - now rewrite IH.
  - now rewrite mgr_admission.
Qed.

Lemma listeners_drainList now q : forall w,
  listeners (mgr (drainList now q w)) = listeners (mgr w).
Proof.
  induction q as [|x q IH]; intros w; [reflexivity|].
  simpl. destruct (blank (message x)).
  - now rewrite IH.
  - now rewrite mgr_admission.
Qed.

Lemma toastRef_drain now w : toastRef (mgr (drain now w)) = toastRef (mgr w).
Proof.
  unfold drain. destruct (canDrain w); [apply toastRef_drainList | reflexivity].
Qed.

Lemma listeners_drain now w : listeners (mgr (drain now w)) = listeners (mgr w).
Proof.
  unfold drain. destruct (canDrain w); [apply listeners_drainList | reflexivity].
Qed.

Lemma run_notify build now l w : run build now (Notify l) w = Some (drain now w).
Proof.
  rewrite run_unfold. unfold dispatch, ToastManager.notify. destruct l.
  apply exec_processQueue. unfold qlen. lia.
Qed.

(** C2, as stated, fails in [managers/ToastManager.ts]: [setToastRef(null)]
    does clear the reference, but the next [show] is not queued: that
    manager never queues, so the request is lost. *)
Lemma setToastRef_null_counterexample :
  exists w w',
    runAll modular [(0, MgrSetToastRef (Some refObject));
                    (1, MgrSetToastRef None)] (initialWorld noProps) = Some w
    /\ toastRef (mgr w) = None
    /\ blank (js "A") = false
    /\ run modular 1000000 (MgrShow (js "A") None None) w = Some w'
    /\ queue (mgr w') = [] /\ trace w' = [].
Proof.
  eexists. eexists. split; [vm_compute; reflexivity|].
  split; [reflexivity|]. split; [reflexivity|].
  split; [vm_compute; reflexivity|].
  split; reflexivity.
Qed.

(** C2, amended.  In the manager of [src/Toast.tsx], [setToastRef] with a
    driver stores it, invokes the readiness waiters in order (each one
    attempts a drain), clears them and attempts a drain.  In the manager
    of [managers/ToastManager.ts], [setToastRef] only stores its argument:
    a driver is registered with no waiter invoked and nothing drained,
    [null] clears the reference and leaves the queue alone; after that a
    [show] is neither displayed nor queued. *)
Theorem setToastRef_effect (now : Z) (w : World) (r : ToastRef)
    (ref : option ToastRef) :
  (exists w1 w2,
     forEach (fun l => run monolith now (Notify l)) (listeners (mgr w))
       (onMgr (set_toastRef (Some r)) w) = Some w1
     /\ run monolith now MgrProcessQueue (onMgr (set_listeners []) w1) = Some w2
     /\ run monolith now (MgrSetToastRef (Some r)) w = Some w2
     /\ toastRef (mgr w2) = Some r /\ listeners (mgr w2) = [])
  /\ run modular now (MgrSetToastRef ref) w = Some (onMgr (set_toastRef ref) w)
  /\ (forall now' m ty o,
        exists w',
          run modular now' (MgrShow m ty o) (onMgr (set_toastRef None) w) = Some w'
          /\ trace w' = trace w /\ queue (mgr w') = queue (mgr w)
          /\ cmp w' = cmp w).
Proof.
  split; [|split]; try reflexivity.
  - destruct (exec_total monolith now (MgrSetToastRef (Some r)) w) as [w2 H2].
    pose proof H2 as H. rewrite run_unfold in H.
    unfold dispatch, Monolith.setToastRef in H.
    rewrite forEach_notify in H by (unfold qlen; simpl; lia).
    cbn [mgr onMgr listeners set_toastRef] in H.
    destruct (forEach _ (listeners (mgr w)) _) as [w1|] eqn:E1;
      [|discriminate]. cbn [bind] in H.
    assert (Hq : (qlen w1 <= qlen w)%nat).
    { refine (forEach_qlen _ _ _ _ _ E1).
      intros a wa wb Hab. apply exec_qlen in Hab. simpl in Hab. lia. }
    rewrite exec_enough in H by (simpl; unfold qlen in *; simpl; lia).
    exists w1, w2. repeat split; try assumption.
    + rewrite run_processQueue in H. injection H as <-.
      rewrite toastRef_drain. simpl.
      refine (forEach_inv (fun w => toastRef (mgr w) = Some r) _ _ _ _ _ E1 eq_refl).
      intros l wa wb Hab Ha. rewrite run_notify in Hab. injection Hab as <-.
      now rewrite toastRef_drain.
    + rewrite run_processQueue in H. injection H as <-.
      now rewrite listeners_drain.
  - intros now' m ty o. rewrite run_unfold. unfold dispatch, Modular.show.
    destruct (blank m); [eexists; split; [reflexivity|]; repeat split|].
    destruct (_ || _)%bool; eexists; (split; [reflexivity|]); repeat split.
Qed.

(** ** The lifecycle of one toast *)

Lemma findTimer_fresh id l :
  Forall (fun t => (timerId t < id)%nat) l -> findTimer id l = None.
Proof.
  induction 1 as [|t l Ht _ IH]; [reflexivity|].
  simpl. destruct (Nat.eqb_spec (timerId t) id); [lia | exact IH].
Qed.

Lemma findTimer_last id d task l :
  Forall (fun t => (timerId t < id)%nat) l ->
  findTimer id (l ++ [mkTimer id d task]) = Some task.
Proof.
  induction 1 as [|t l Ht _ IH]; simpl.
  - now rewrite Nat.eqb_refl.
  - destruct (Nat.eqb_spec (timerId t) id); [lia | exact IH].
Qed.

Lemma findTimer_setTimeout task d k :
  freshTimers k ->
  findTimer (nextTimerId k) (timers (fst (setTimeout task d k))) = Some task.
Proof. intros H. unfold setTimeout. simpl. now apply findTimer_last. Qed.

Lemma findTimer_cleared id l :
  findTimer id (filter (fun t => negb (Nat.eqb (timerId t) id)) l) = None.
Proof.
  induction l as [|t l IH]; [reflexivity|].
  simpl. destruct (Nat.eqb_spec (timerId t) id) as [He|He]; simpl; [exact IH|].
  destruct (Nat.eqb_spec (timerId t) id); [contradiction | exact IH].
Qed.

Lemma exec_hideToast_shown build now f seen cb w :
  shown w -> (1 <= f)%nat ->
  exec build now f (CmpHideToast seen cb) w = Some (retract seen cb w).
Proof.
  intros Hs Hf. apply (exec_le build now 1 f Hf).
  rewrite exec_unfold. unfold dispatch, Toast.hideToast.
  replace (negb (isAnimatingRef (cmp w)) && (value (transY (cmp w)) =? -100))
    with false; [reflexivity|].
  destruct Hs as [Hs | Hs].
  - now rewrite Hs.
  - apply Z.eqb_neq in Hs. rewrite Hs. now rewrite andb_false_r.
Qed.

Lemma run_fireTimer_nextCycle build now id seen a d w :
  findTimer id (timers (cmp w)) = Some (nextCycle seen a d) ->
  run build now (FireTimer id) w = Some (ticked id seen a d w).
Proof.
  intros H. rewrite run_unfold. unfold dispatch, Toast.fireTimer.
  now rewrite H.
Qed.

Lemma run_fireTimer_autoHide build now id seen w :
  findTimer id (timers (cmp w)) = Some (autoHide seen) ->
  shown w ->
  run build now (FireTimer id) w
  = Some (retract seen None (onCmp (clearTimeout id) w)).
Proof.
  intros H Hs. rewrite run_unfold. unfold dispatch, Toast.fireTimer.
  rewrite H. apply exec_hideToast_shown; [exact Hs | lia].
Qed.

Lemma run_finish_modular now w a v cb :
  animation (transY (cmp w)) = Some a ->
  onFinish a = Some (completeHide cb) ->
  toValue a = v ->
  queue (mgr w) = [] ->
  run modular now (FinishAnimation TransY) w
  = Some (settled cb (onCmp (assign TransY v) w)).
Proof.
  intros Ha Hf <- Hq. rewrite run_unfold. unfold dispatch, Toast.finishAnimation.
  simpl shared. rewrite Ha, Hf.
  rewrite exec_plus. unfold dispatch, Toast.completeHideAnimation.
  rewrite (exec_enough modular now _ (CmpUpdateAnimationStatus false))
    by (simpl; unfold qlen; simpl; lia).
  rewrite run_update_false_modular. cbn [bind].
  unfold settled. destruct cb as [[c|cb]|]; try reflexivity.
  rewrite exec_Invoke_manager by (unfold qlen; simpl; lia).
  rewrite drain_empty; [reflexivity|].
  destruct cb; exact Hq.
Qed.

Lemma run_finish_monolith now w a v :
  animation (transY (cmp w)) = Some a ->
  onFinish a = Some (completeHide None) ->
  toValue a = v ->
  run monolith now (FinishAnimation TransY) w
  = Some (onCmp Toast.resetConfig
            (drain now (mark false (onCmp (assign TransY v) w)))).
Proof.
  intros Ha Hf <-. rewrite run_unfold. unfold dispatch, Toast.finishAnimation.
  simpl shared. rewrite Ha, Hf.
  rewrite exec_plus. unfold dispatch, Toast.completeHideAnimation.
  rewrite (exec_enough monolith now _ (CmpUpdateAnimationStatus false))
    by (simpl; unfold qlen; simpl; lia).
  rewrite run_update_false_monolith, run_processQueue. reflexivity.
Qed.

(** ** [hideToast] on a toast that is shown *)

Section Retract.
Variable seen : ToastConfig.
Variable cb : option HideCallback.
Variable w : World.
Let d : Q := inject_Z (cfgAnimationDuration seen).
Local Abbreviation retract := (retract seen).

Lemma retract_mgr : mgr (retract cb w) = mgr w.
Proof. unfold retract. destruct (timer (cmp w)); reflexivity. Qed.

Lemma retract_trace : trace (retract cb w) = trace w.
Proof. unfold retract. destruct (timer (cmp w)); reflexivity. Qed.

Lemma retract_timer : timer (cmp (retract cb w)) = None.
Proof. unfold retract. destruct (timer (cmp w)) eqn:E; simpl; [reflexivity | exact E]. Qed.

Lemma retract_timers id :
  timer (cmp w) = Some id -> findTimer id (timers (cmp (retract cb w))) = None.
Proof. intros E. unfold retract. rewrite E. simpl. apply findTimer_cleared. Qed.

Lemma retract_textOpacity :
  animation (textOpacity (cmp (retract cb w))) = Some (withTiming 0 (d / 2) None).
Proof. unfold retract. destruct (timer (cmp w)); reflexivity. Qed.

Lemma retract_toastWidth :
  animation (toastWidth (cmp (retract cb w)))
  = Some (withDelay (d / 2) (withTiming CONTAINER_SIZE (d / 2) None)).
Proof. unfold retract. destruct (timer (cmp w)); reflexivity. Qed.

Lemma retract_transY :
  animation (transY (cmp (retract cb w)))
  = Some (withDelay d (withTiming (-100) d (Some (completeHide cb)))).
Proof. unfold retract. destruct (timer (cmp w)); reflexivity. Qed.
End Retract.

Lemma onDisplayA_reachable : reachable modular noProps onDisplayA.
Proof.
  apply (reachable_runAll modular noProps displayA eq_refl (initialWorld noProps));
    [apply reachable_init | vm_compute; reflexivity].
Qed.

(** ** A full lifecycle, then the next queued toast (C3) *)

Lemma present_timer seen text ty a d w :
  freshTimers (cmp w) ->
  findTimer (nextTimerId (cmp w)) (timers (cmp (present seen text ty a d w)))
  = Some (nextCycle seen a d).
Proof.
  intros Hf. unfold present, setTimeout.
  destruct (timer (cmp w)) as [id|]; simpl; apply findTimer_last.
  - apply (fresh_clearTimeout id) in Hf. exact Hf.
  - exact Hf.
Qed.

Lemma present_fresh seen text ty a d w :
  freshTimers (cmp w) -> freshTimers (cmp (present seen text ty a d w)).
Proof.
  intros Hf. unfold present.
  destruct (timer (cmp w)) as [id|]; cbn [cmp onCmp emit onMgr];
    apply fresh_setTimeout, fresh_set_config;
    unfold assign; do 2 apply fresh_set_shared;
    apply fresh_set_isAnimatingRef;
    unfold cancelAnimation; do 3 apply fresh_set_shared;
    [apply fresh_clearTimeout|]; exact Hf.
Qed.

Lemma present_nextTimerId seen text ty a d w :
  nextTimerId (cmp (present seen text ty a d w)) = S (nextTimerId (cmp w)).
Proof. unfold present. destruct (timer (cmp w)); reflexivity. Qed.

Lemma present_isAnimatingRef seen text ty a d w :
  isAnimatingRef (cmp (present seen text ty a d w)) = true.
Proof. unfold present. destruct (timer (cmp w)); reflexivity. Qed.

Lemma ticked_timer id seen a d w :
  freshTimers (cmp w) ->
  findTimer (nextTimerId (cmp w)) (timers (cmp (ticked id seen a d w)))
  = Some (autoHide seen).
Proof.
  intros Hf. unfold ticked, setTimeout. simpl. apply findTimer_last.
  apply (fresh_clearTimeout id) in Hf. exact Hf.
Qed.

Lemma ticked_isAnimatingRef id seen a d w :
  isAnimatingRef (cmp (ticked id seen a d w)) = isAnimatingRef (cmp w).
Proof. reflexivity. Qed.

Lemma ticked_mgr id seen a d w : mgr (ticked id seen a d w) = mgr w.
Proof. reflexivity. Qed.

Lemma ticked_trace id seen a d w : trace (ticked id seen a d w) = trace w.
Proof. reflexivity. Qed.

Lemma ticked_props id seen a d w : props (cmp (ticked id seen a d w)) = props (cmp w).
Proof. reflexivity. Qed.

Lemma mgr_onCmp f w : mgr (onCmp f w) = mgr w.
Proof. reflexivity. Qed.

Lemma trace_onCmp f w : trace (onCmp f w) = trace w.
Proof. reflexivity. Qed.

Lemma mgr_mark b w : mgr (mark b w) = set_isAnimating b (mgr w).
Proof. reflexivity. Qed.

Lemma trace_mark b w : trace (mark b w) = trace w.
Proof. reflexivity. Qed.

Lemma props_mark_assign b v x w :
  props (cmp (mark b (onCmp (assign v x) w))) = props (cmp w).
Proof. destruct v; reflexivity. Qed.

Lemma props_clearTimeout id w :
  props (cmp (onCmp (clearTimeout id) w)) = props (cmp w).
Proof. reflexivity. Qed.

Lemma retract_props seen cb w : props (cmp (retract seen cb w)) = props (cmp w).
Proof. unfold retract. destruct (timer (cmp w)); reflexivity. Qed.

Section Lifecycle.
Variable w : World.
Variables t0 t1 t2 t3 : Z.
Variable r0 : Request.
Hypothesis Hfresh : freshTimers (cmp w).

Let id : TimerId := nextTimerId (cmp w).
Let seen : ToastConfig := driverConfig w.
Let a : Z := resolveAnimationDuration (options r0) (props (cmp w)).
Let d : Z := resolveDuration (options r0) (props (cmp w)).
Local Abbreviation exiting := (exiting w t0 r0).
Local Abbreviation releasedAfter := (releasedAfter w t0 r0).

Lemma admission_timer :
  findTimer id (timers (cmp (admission t0 r0 w))) = Some (nextCycle seen a d).
Proof.
  exact (present_timer seen (message r0) (rtype r0) a d
           (onMgr (set_lastToastTime t0) (onMgr (set_isAnimating true) w)) Hfresh).
Qed.

Lemma admission_fresh : freshTimers (cmp (admission t0 r0 w)).
Proof.
  exact (present_fresh seen (message r0) (rtype r0) a d
           (onMgr (set_lastToastTime t0) (onMgr (set_isAnimating true) w)) Hfresh).
Qed.

Lemma admission_nextTimerId : nextTimerId (cmp (admission t0 r0 w)) = S id.
Proof.
  exact (present_nextTimerId seen (message r0) (rtype r0) a d
           (onMgr (set_lastToastTime t0) (onMgr (set_isAnimating true) w))).
Qed.

Lemma admission_isAnimatingRef : isAnimatingRef (cmp (admission t0 r0 w)) = true.
Proof.
  exact (present_isAnimatingRef seen (message r0) (rtype r0) a d
           (onMgr (set_lastToastTime t0) (onMgr (set_isAnimating true) w))).
Qed.

Lemma run_nextCycle build :
  run build t1 (FireTimer id) (admission t0 r0 w)
  = Some (ticked id seen a d (admission t0 r0 w)).
Proof. apply run_fireTimer_nextCycle. exact admission_timer. Qed.

Lemma run_autoHide build :
  run build t2 (FireTimer (S id)) (ticked id seen a d (admission t0 r0 w))
  = Some exiting.
Proof.
  apply (run_fireTimer_autoHide build t2 (S id) seen).
  - rewrite <- admission_nextTimerId. apply ticked_timer. exact admission_fresh.
  - left. rewrite ticked_isAnimatingRef. exact admission_isAnimatingRef.
Qed.

Lemma run_exit_monolith :
  run monolith t3 (FinishAnimation TransY) exiting
  = Some (onCmp Toast.resetConfig (drain t3 releasedAfter)).
Proof.
  unfold releasedAfter.
  apply (run_finish_monolith t3 exiting
           (withDelay (inject_Z (cfgAnimationDuration seen))
              (withTiming (-100) (inject_Z (cfgAnimationDuration seen))
                 (Some (completeHide None)))) (-100)).
  - unfold exiting. apply retract_transY.
  - reflexivity.
  - reflexivity.
Qed.

Lemma run_exit_modular :
  queue (mgr w) = [] ->
  run modular t3 (FinishAnimation TransY) exiting
  = Some (settled None (onCmp (assign TransY (-100)) exiting)).
Proof.
  intros Hq.
  apply (run_finish_modular t3 exiting
           (withDelay (inject_Z (cfgAnimationDuration seen))
              (withTiming (-100) (inject_Z (cfgAnimationDuration seen))
                 (Some (completeHide None)))) (-100) None).
  - unfold exiting. apply retract_transY.
  - reflexivity.
  - reflexivity.
  - unfold exiting. rewrite retract_mgr, mgr_onCmp, ticked_mgr, mgr_admission.
    exact Hq.
Qed.

Lemma exiting_mgr :
  mgr exiting
  = mkManager (toastRef (mgr w)) (listeners (mgr w)) true (queue (mgr w)) t0.
Proof.
  unfold exiting. now rewrite retract_mgr, mgr_onCmp, ticked_mgr, mgr_admission.
Qed.

Lemma exiting_trace :
  trace exiting = trace w ++ [presented (props (cmp w)) r0].
Proof.
  unfold exiting.
  now rewrite retract_trace, trace_onCmp, ticked_trace, trace_admission.
Qed.

Lemma releasedAfter_mgr :
  mgr releasedAfter
  = mkManager (toastRef (mgr w)) (listeners (mgr w)) false (queue (mgr w)) t0.
Proof.
  unfold releasedAfter. rewrite mgr_mark, mgr_onCmp.
  unfold exiting. rewrite retract_mgr, mgr_onCmp, ticked_mgr, mgr_admission.
  reflexivity.
Qed.

Lemma releasedAfter_trace :
  trace releasedAfter = trace w ++ [presented (props (cmp w)) r0].
Proof.
  unfold releasedAfter. rewrite trace_mark, trace_onCmp.
  unfold exiting. rewrite retract_trace, trace_onCmp, ticked_trace, trace_admission.
  reflexivity.
Qed.

Lemma releasedAfter_props : props (cmp releasedAfter) = props (cmp w).
Proof.
  unfold releasedAfter. rewrite props_mark_assign.
  unfold exiting. rewrite retract_props, props_clearTimeout, ticked_props.
  apply props_admission.
Qed.
End Lifecycle.

Lemma run_setAnimating_false now w :
  run monolith now (MgrSetAnimating false) w
  = Some (drain now (onMgr (set_isAnimating false) w)).
Proof.
  rewrite run_unfold. unfold dispatch, Monolith.setAnimating.
  apply exec_processQueue. unfold qlen. simpl. lia.
Qed.

Lemma run_lifecycle_prefix build (w : World) (t0 t1 t2 : Z) (m : jsstring)
    (ty : option ToastType) (o : option ToastOptions) :
  freshTimers (cmp w) ->
  toastRef (mgr w) <> None ->
  isAnimating (mgr w) = false ->
  THROTTLE_DELAY <= t0 - lastToastTime (mgr w) ->
  blank m = false ->
  runAll build
    [(t0, MgrShow m ty o); (t1, FireTimer (nextTimerId (cmp w)));
     (t2, FireTimer (S (nextTimerId (cmp w))))] w
  = Some (exiting w t0 (mkRequest m (typeDefault ty) o)).
Proof.
  intros Hfresh Href Hidle Ht Hb.
  set (R := mkRequest m (typeDefault ty) o).
  assert (H1 : run build t0 (MgrShow m ty o) w = Some (admission t0 R w)).
  { apply exec_show_accepted; try assumption. unfold enough. lia. }
  cbn [runAll]. rewrite H1. cbn [bind].
  rewrite (run_nextCycle w t0 t1 R Hfresh build). cbn [bind].
  rewrite (run_autoHide w t0 t2 R Hfresh build). reflexivity.
Qed.

Lemma runAll_app build s1 s2 w :
  runAll build (s1 ++ s2) w = w1 <- runAll build s1 w ;; runAll build s2 w1.
Proof.
  revert w. induction s1 as [|[now c] s1 IH]; intros w; [reflexivity|].
  simpl. destruct (run build now c w); [apply IH | reflexivity].
Qed.

Lemma run_lifecycle build (w : World) (t0 t1 t2 t3 : Z) (m : jsstring)
    (ty : option ToastType) (o : option ToastOptions) :
  freshTimers (cmp w) ->
  toastRef (mgr w) <> None ->
  isAnimating (mgr w) = false ->
  THROTTLE_DELAY <= t0 - lastToastTime (mgr w) ->
  blank m = false ->
  runAll build
    [(t0, MgrShow m ty o); (t1, FireTimer (nextTimerId (cmp w)));
     (t2, FireTimer (S (nextTimerId (cmp w)))); (t3, FinishAnimation TransY)] w
  = run build t3 (FinishAnimation TransY)
      (exiting w t0 (mkRequest m (typeDefault ty) o)).
Proof.
  intros Hfresh Href Hidle Ht Hb.
  change [(t0, MgrShow m ty o); (t1, FireTimer (nextTimerId (cmp w)));
          (t2, FireTimer (S (nextTimerId (cmp w)))); (t3, FinishAnimation TransY)]
    with ([(t0, MgrShow m ty o); (t1, FireTimer (nextTimerId (cmp w)));
           (t2, FireTimer (S (nextTimerId (cmp w))))]
          ++ [(t3, FinishAnimation TransY)]).
  rewrite runAll_app, run_lifecycle_prefix by assumption.
  cbn [bind runAll].
  destruct (run build t3 _ _); reflexivity.
Qed.

(** C3, amended.  In [src/Toast.tsx] every [setAnimating(false)] clears
    [isAnimating] and attempts a drain; in [managers/ToastManager.ts]
    [setAnimating] only stores the flag, and nothing is ever queued there.
    When a toast that was accepted has run its lifecycle (display,
    next-cycle timer, auto-dismiss timer, end of the exit animation) with a
    driver registered: if nothing was queued, [isAnimating] is false and
    nothing else has been passed to the driver; if requests were queued,
    which happens in [src/Toast.tsx] only, the completion has taken the
    oldest from the queue and passed it to the driver with no further
    [show] call, so [isAnimating] is true again and [lastToastTime] is the
    time of the completion. *)
Theorem lifecycle_then_next (build : Build) (p : ToastComponentProps)
    (w : World) (t0 t1 t2 t3 : Z) (m : jsstring) (ty : option ToastType)
    (o : option ToastOptions) :
  reachable build p w ->
  toastRef (mgr w) <> None ->
  isAnimating (mgr w) = false ->
  THROTTLE_DELAY <= t0 - lastToastTime (mgr w) ->
  blank m = false ->
  let id := nextTimerId (cmp w) in
  let first := presented (props (cmp w)) (mkRequest m (typeDefault ty) o) in
  (forall now w0,
     run monolith now (MgrSetAnimating false) w0
     = run monolith now MgrProcessQueue (onMgr (set_isAnimating false) w0))
  /\ (forall now w0,
        run modular now (MgrSetAnimating false) w0
        = Some (onMgr (set_isAnimating false) w0))
  /\ (build = modular -> queue (mgr w) = [])
  /\ exists w4,
       runAll build
         [(t0, MgrShow m ty o); (t1, FireTimer id);
          (t2, FireTimer (S id)); (t3, FinishAnimation TransY)] w = Some w4
       /\ (queue (mgr w) = [] ->
           isAnimating (mgr w4) = false
           /\ trace w4 = trace w ++ [first]
           /\ queue (mgr w4) = [])
       /\ (forall r rest,
             queue (mgr w) = r :: rest ->
             build = monolith
             /\ trace w4 = trace w ++ [first; presented (props (cmp w)) r]
             /\ queue (mgr w4) = rest
             /\ isAnimating (mgr w4) = true
             /\ lastToastTime (mgr w4) = t3).
Proof.
  intros Hreach Href Hidle Ht Hb id first.
  split.
  { intros now w0. rewrite run_processQueue. apply run_setAnimating_false. }
  split; [reflexivity|].
  split.
  { intros ->. exact (modular_queue_empty p w Hreach). }
  pose proof (reachable_freshTimers _ _ _ Hreach) as Hfresh.
  pose proof (reachable_queueOk build p w Hreach) as [_ Hvalid].
  subst id first.
  set (R := mkRequest m (typeDefault ty) o).
  rewrite run_lifecycle by assumption. fold R.
  destruct build.
  - pose proof (releasedAfter_mgr w t0 R) as HmW.
    pose proof (releasedAfter_trace w t0 R) as HtW.
    pose proof (releasedAfter_props w t0 R) as HpW.
    exists (onCmp Toast.resetConfig (drain t3 (releasedAfter w t0 R))).
    split; [apply run_exit_monolith|].
    revert HmW HtW HpW. generalize (releasedAfter w t0 R). intros W HmW HtW HpW.
    assert (Hc : canDrain W = true).
    { unfold canDrain. rewrite HmW. cbn [isAnimating toastRef negb andb].
      destruct (toastRef (mgr w)); [reflexivity | congruence]. }
    unfold drain. rewrite Hc, HmW. cbn [queue].
    split.
    + intros Hq. rewrite Hq. cbn [drainList mgr trace onCmp].
      rewrite HmW, HtW, Hq. repeat split.
    + intros r rest Hq. rewrite Hq in *. inversion Hvalid as [|? ? Hr _]; subst.
      unfold valid in Hr. cbn [drainList]. rewrite Hr.
      rewrite mgr_onCmp, trace_onCmp, mgr_admission, trace_admission.
      remember (onMgr (set_queue rest) W) as W' eqn:HW'.
      assert (Hq' : queue (mgr W') = rest) by (rewrite HW'; reflexivity).
      assert (Ht' : trace W' = trace w ++ [presented (props (cmp w)) R])
        by (rewrite HW'; exact HtW).
      assert (Hp' : props (cmp W') = props (cmp w)) by (rewrite HW'; exact HpW).
      clear HW'. cbn [queue isAnimating lastToastTime].
      rewrite Ht', Hp', Hq', <- app_assoc.
      split; [reflexivity|]. split; [reflexivity|].
      split; [reflexivity|]. split; reflexivity.
  - pose proof (modular_queue_empty p w Hreach) as Hq.
    exists (settled None (onCmp (assign TransY (-100)) (exiting w t0 R))).
    split; [now apply run_exit_modular|].
    pose proof (exiting_mgr w t0 R) as Hm.
    pose proof (exiting_trace w t0 R) as Htr.
    revert Hm Htr. generalize (exiting w t0 R). intros X Hm Htr.
    split.
    + intros _. unfold settled.
      rewrite mgr_onCmp, mgr_mark, mgr_onCmp, trace_onCmp, trace_mark,
        trace_onCmp, Hm, Htr, Hq.
      repeat split.
    + intros r rest Hq'. congruence.
Qed.

Lemma waitingB_reachable : reachable monolith noProps waitingB.
Proof.
  apply (reachable_runAll monolith noProps registerThenB eq_refl
           (initialWorld noProps));
    [apply reachable_init | vm_compute; reflexivity].
Qed.

(** C3, as stated, fails where a request is waiting: when the lifecycle of
    ["A"] has completed, ["B"] has been taken from the queue, so
    [isAnimating] is true, not false; and ["B"] is not on display: the
    configuration holds no text and the component renders nothing. *)
Lemma manager_busy_after_lifecycle :
  exists w4,
    queue (mgr waitingB) = [mkRequest (js "B") info None]
    /\ toastRef (mgr waitingB) = Some refObject
    /\ runAll monolith
         [(1000000, MgrShow (js "A") None None); (1000001, FireTimer 1%nat);
          (1004001, FireTimer 2%nat); (1004801, FinishAnimation TransY)] waitingB
       = Some w4
    /\ isAnimating (mgr w4) = true
    /\ text (config (cmp w4)) = None
    /\ rendersNull (config (cmp w4)) = true.
Proof.
  eexists. split; [reflexivity|]. split; [reflexivity|].
  split; [vm_compute; reflexivity|]. repeat split.
Qed.

Lemma lifecycle_then_next_witness :
  exists w4,
    runAll monolith
      [(1000000, MgrShow (js "A") None None); (1000001, FireTimer 1%nat);
       (1004001, FireTimer 2%nat); (1004801, FinishAnimation TransY)] waitingB
    = Some w4
    /\ trace w4 = [Presented (js "A") info 400 4000;
                   Presented (js "B") info 400 4000]
    /\ queue (mgr w4) = []
    /\ lastToastTime (mgr w4) = 1004801.
Proof.
  destruct (lifecycle_then_next monolith noProps waitingB 1000000 1000001 1004001 1004801
              (js "A") None None) as (_ & _ & _ & w4 & Hrun & _ & Hnext).
  - exact waitingB_reachable.
  - discriminate.
  - reflexivity.
  - vm_compute. discriminate.
  - reflexivity.
  - exists w4. split; [exact Hrun|].
    destruct (Hnext (mkRequest (js "B") info None) [] eq_refl)
      as (_ & Ht & Hq & _ & Hl).
    split; [exact Ht|]. split; [exact Hq | exact Hl].
Defined.

(** ** The durations of the exit animation (C8) *)

Lemma config_retract seen cb w :
  config (cmp (retract seen cb w)) = config (cmp w).
Proof. unfold retract. destruct (timer (cmp w)); reflexivity. Qed.

Lemma config_cleared_ticked i id seen a d w :
  config (cmp (onCmp (clearTimeout i) (ticked id seen a d w))) = config (cmp w).
Proof. reflexivity. Qed.

Lemma config_exiting w t0 r0 :
  config (cmp (exiting w t0 r0))
  = mkConfig (Some (message r0)) (Some (rtype r0)) true
      (resolveDuration (options r0) (props (cmp w)))
      (resolveAnimationDuration (options r0) (props (cmp w))).
Proof.
  unfold exiting. rewrite config_retract, config_cleared_ticked.
  unfold admission, display. now rewrite config_present.
Qed.

(** C8.  The exit is not staged by the animation duration of the toast
    that leaves.  [hideToast] reads [config.animationDuration], and the
    [hideToast] the auto-dismiss timer calls belongs to the render that
    made the driver whose [show] displayed the toast: for [refObject],
    built once by the effect, that is the mount render, whose [config]
    holds the default; for a handle of a later render, the [config] of
    that render.  So a toast accepted with its own animation
    duration enters over that duration ([own]), and [showToast] stores it
    in the state, but when the auto-dismiss timer fires the text fades
    over half of the duration the driver sees ([s / 2]), the width closes
    over [s / 2] after [s / 2], and the position leaves over [s] after
    [s]. *)
Theorem exit_uses_the_duration_the_driver_sees (build : Build) (w : World)
    (t0 t1 t2 : Z) (m : jsstring) (ty : option ToastType)
    (o : option ToastOptions) :
  freshTimers (cmp w) ->
  toastRef (mgr w) <> None ->
  isAnimating (mgr w) = false ->
  THROTTLE_DELAY <= t0 - lastToastTime (mgr w) ->
  blank m = false ->
  let own := resolveAnimationDuration o (props (cmp w)) in
  let s := inject_Z (cfgAnimationDuration (driverConfig w)) in
  (toastRef (mgr w) = Some refObject ->
   cfgAnimationDuration (driverConfig w)
   = propDefault (defaultAnimationDuration (props (cmp w))) 400)
  /\ (forall seen, toastRef (mgr w) = Some (renderedHandle seen) ->
      cfgAnimationDuration (driverConfig w) = cfgAnimationDuration seen)
  /\ exists w3,
       runAll build
         [(t0, MgrShow m ty o); (t1, FireTimer (nextTimerId (cmp w)));
          (t2, FireTimer (S (nextTimerId (cmp w))))] w = Some w3
       /\ trace w3
          = trace w ++ [Presented m (typeDefault ty) own
                          (resolveDuration o (props (cmp w)))]
       /\ cfgAnimationDuration (config (cmp w3)) = own
       /\ animation (textOpacity (cmp w3)) = Some (withTiming 0 (s / 2) None)
       /\ animation (toastWidth (cmp w3))
          = Some (withDelay (s / 2) (withTiming CONTAINER_SIZE (s / 2) None))
       /\ animation (transY (cmp w3))
          = Some (withDelay s (withTiming (-100) s (Some (completeHide None)))).
Proof.
  intros Hf Hr Hi Ht Hb own s. split.
  { intros E. unfold driverConfig. rewrite E. reflexivity. }
  split.
  { intros seen E. unfold driverConfig. rewrite E. reflexivity. }
  rewrite run_lifecycle_prefix by assumption.
  set (R := mkRequest m (typeDefault ty) o).
  eexists. split; [reflexivity|].
  split; [exact (exiting_trace w t0 R)|].
  split; [now rewrite config_exiting|].
  unfold exiting.
  split; [apply retract_textOpacity|].
  split; [apply retract_toastWidth | apply retract_transY].
Qed.

Lemma exit_uses_the_duration_the_driver_sees_witness :
  exists w3 a1 a2 a3,
    runAll modular
      [(1000000, MgrShow (js "A") None (Some (mkOptions None (Some 200))));
       (1000001, FireTimer 1%nat); (1004001, FireTimer 2%nat)] idle = Some w3
    /\ trace w3 = [Presented (js "A") info 200 4000]
    /\ cfgAnimationDuration (config (cmp w3)) = 200
    /\ animation (textOpacity (cmp w3)) = Some a1
    /\ animation (toastWidth (cmp w3)) = Some a2
    /\ animation (transY (cmp w3)) = Some a3
    /\ (delay a1 == 0 /\ animDuration a1 == 200)%Q
    /\ (delay a2 == 200 /\ animDuration a2 == 200)%Q
    /\ (delay a3 == 400 /\ animDuration a3 == 400)%Q
    /\ ~ (animDuration a3 == 200)%Q.
Proof.
  destruct (exit_uses_the_duration_the_driver_sees modular idle
              1000000 1000001 1004001 (js "A") None
              (Some (mkOptions None (Some 200))))
    as (_ & _ & w3 & Hrun & Htr & Hc & H1 & H2 & H3).
  - constructor.
  - discriminate.
  - reflexivity.
  - vm_compute. discriminate.
  - reflexivity.
  - exists w3. do 3 eexists.
    split; [exact Hrun|]. split; [exact Htr|]. split; [exact Hc|].
    split; [exact H1|]. split; [exact H2|]. split; [exact H3|].
    repeat split; try reflexivity. discriminate.
Defined.

(** ** The scenarios of the specification, run *)

(** Three requests with no driver registered: in the build of
    [src/Toast.tsx] two are queued and the third is dropped; registering a
    driver displays the first and keeps the second queued. *)
Example three_requests_before_mount :
  exists w w',
    runAll monolith
      [(1000000, MgrShow (js "A") None None);
       (1000001, MgrShow (js "B") None None);
       (1000002, MgrShow (js "C") None None)] (initialWorld noProps) = Some w
    /\ map message (queue (mgr w)) = [js "A"; js "B"]
    /\ trace w = []
    /\ run monolith 1000003 (MgrSetToastRef (Some refObject)) w = Some w'
    /\ trace w' = [Presented (js "A") info 400 4000]
    /\ map message (queue (mgr w')) = [js "B"].
Proof.
  eexists. eexists. split; [vm_compute; reflexivity|].
  split; [reflexivity|]. split; [reflexivity|].
  split; [vm_compute; reflexivity|]. split; reflexivity.
Qed.

(** The same three requests in the build of [managers/ToastManager.ts]:
    nothing is queued, nothing is displayed once the driver registers. *)
Example three_requests_before_mount_modular :
  exists w w',
    runAll modular
      [(1000000, MgrShow (js "A") None None);
       (1000001, MgrShow (js "B") None None);
       (1000002, MgrShow (js "C") None None)] (initialWorld noProps) = Some w
    /\ queue (mgr w) = []
    /\ run modular 1000003 (MgrSetToastRef (Some refObject)) w = Some w'
    /\ trace w' = [] /\ queue (mgr w') = [].
Proof.
  eexists. eexists. split; [vm_compute; reflexivity|].
  split; [reflexivity|]. split; [vm_compute; reflexivity|].
  split; reflexivity.
Qed.

(** ["A"] is accepted, ["B"] arrives 100 ms later and is queued; when
    ["A"] has gone, ["B"] is displayed with no further request
    ([src/Toast.tsx]). *)
Example queued_toast_follows :
  exists w,
    runAll monolith
      [(0, MgrSetToastRef (Some refObject));
       (1000000, MgrShow (js "A") None None);
       (1000001, FireTimer 1%nat);
       (1000100, MgrShow (js "B") None None);
       (1004001, FireTimer 2%nat);
       (1004801, FinishAnimation TransY)] (initialWorld noProps) = Some w
    /\ trace w = [Presented (js "A") info 400 4000;
                  Presented (js "B") info 400 4000]
    /\ queue (mgr w) = []
    /\ isAnimating (mgr w) = true.
Proof.
  eexists. split; [vm_compute; reflexivity|]. repeat split.
Qed.

(** The same requests in the build of [managers/ToastManager.ts]: ["B"]
    is dropped, and after ["A"] has gone nothing follows. *)
Example queued_toast_lost_modular :
  exists w,
    runAll modular
      [(0, MgrSetToastRef (Some refObject));
       (1000000, MgrShow (js "A") None None);
       (1000001, FireTimer 1%nat);
       (1000100, MgrShow (js "B") None None);
       (1004001, FireTimer 2%nat);
       (1004801, FinishAnimation TransY)] (initialWorld noProps) = Some w
    /\ trace w = [Presented (js "A") info 400 4000]
    /\ queue (mgr w) = []
    /\ isAnimating (mgr w) = false
    /\ hidden w.
Proof.
  eexists. split; [vm_compute; reflexivity|]. repeat split.
Qed.

Example trim_inner_spaces_kept : trim (js "  a b  ") = js "a b".
Proof. reflexivity. Qed.

Example tabs_and_newlines_are_blank :
  blank [9; 10; 13; 32; 160; 8232; 65279]%N = true.
Proof. reflexivity. Qed.

(** * Further properties of the code *)

(** ** Which messages are blank *)

Lemma trimStart_nil (s : jsstring) :
  trimStart s = [] <-> forallb isWhiteSpace s = true.
Proof.
  induction s as [|c s IH]; simpl; [tauto|].
  destruct (isWhiteSpace c); simpl; [exact IH|].
  split; discriminate.
Qed.

Lemma trimStart_all_white (s : jsstring) :
  forallb isWhiteSpace (trimStart s) = forallb isWhiteSpace s.
Proof.
  induction s as [|c s IH]; simpl; [reflexivity|].
  destruct (isWhiteSpace c) eqn:E; simpl; [exact IH|].
  now rewrite E.
Qed.

Lemma forallb_rev {A} (f : A -> bool) (l : list A) :
  forallb f (rev l) = forallb f l.
Proof.
  induction l as [|a l IH]; simpl; [reflexivity|].
  rewrite forallb_app, IH. simpl. rewrite andb_true_r. apply andb_comm.
Qed.

Lemma trim_nil (s : jsstring) : trim s = [] <-> forallb isWhiteSpace s = true.
Proof.
  unfold trim, trimEnd.
  rewrite <- (trimStart_all_white s), <- (forallb_rev _ (trimStart s)).
  rewrite <- trimStart_nil.
  split; intros H.
  - apply (f_equal (@rev N)) in H. now rewrite rev_involutive in H.
  - now rewrite H.
Qed.

(** X1.  A message is rejected as blank exactly when it has no code unit
    that is not whitespace (the empty message included); the test of the
    hook and the component, [isValidToastRequest] and the test in
    [processQueue] all decide the same thing. *)
Theorem blank_iff_only_whitespace (m : jsstring) :
  blank m = forallb isWhiteSpace m
  /\ ToastManager.isValidToastRequest m = negb (forallb isWhiteSpace m)
  /\ negb (isEmpty m) && negb (isEmpty (trim m))
     = negb (forallb isWhiteSpace m).
Proof.
  assert (H : blank m = forallb isWhiteSpace m).
  { rewrite blank_trim. pose proof (trim_nil m) as Ht.
    destruct (trim m) as [|c t]; destruct (forallb isWhiteSpace m); simpl;
      try reflexivity.
    - destruct Ht as [Ht _]. now specialize (Ht eq_refl).
    - destruct Ht as [_ Ht]. now specialize (Ht eq_refl). }
  split; [exact H|]. split.
  - now rewrite valid_not_blank, H.
  - now rewrite queue_check, H.
Qed.

(** ** Calls terminate *)

(** X2.  No call loops: although the manager and the component call each
    other ([processQueue] calls [show] of the component, which calls
    [setAnimating], which calls [processQueue]), every call returns, and
    with the same result however much fuel beyond [enough w] it is given. *)
Theorem every_call_returns (build : Build) (now : Z) (c : Call) (w : World) :
  exists w',
    run build now c w = Some w'
    /\ forall fuel, (enough w <= fuel)%nat -> exec build now fuel c w = Some w'.
Proof.
  destruct (exec_rank build now (enough w) c w (enough_rank c w)) as [w' H].
  exists w'. split; [exact H|].
  intros fuel Hf. exact (exec_le build now _ _ Hf c w w' H).
Qed.

(** ** The hook adds nothing *)

Lemma run_show_type build now m ty o w :
  run build now (MgrShow m (Some (typeDefault ty)) o) w
  = run build now (MgrShow m ty o) w.
Proof.
  rewrite !run_unfold. unfold dispatch.
  destruct build; [unfold Monolith.show | unfold Modular.show];
    destruct ty; reflexivity.
Qed.

Lemma run_show_blank build now m ty o w :
  blank m = true -> run build now (MgrShow m ty o) w = Some w.
Proof.
  intros Hb. rewrite run_unfold. unfold dispatch.
  destruct build; [unfold Monolith.show | unfold Modular.show].
  - now rewrite valid_not_blank, Hb.
  - now rewrite Hb.
Qed.

(** X3.  [useToast] is a transparent wrapper: [showToast] of the hook has
    exactly the effect of [show] of the manager (its own test for blank
    messages and its default type repeat what the manager does), and
    [hideToast] exactly that of [hide]. *)
Theorem hook_is_transparent (build : Build) (now : Z) (w : World)
    (m : jsstring) (ty : option ToastType) (o : option ToastOptions)
    (callback : option CallbackId) :
  run build now (HookShowToast m ty o) w = run build now (MgrShow m ty o) w
  /\ run build now (HookHideToast callback) w
     = run build now (MgrHide callback) w.
Proof.
  split.
  - rewrite (run_unfold build now (HookShowToast m ty o)).
    unfold dispatch, UseToast.showToast.
    destruct (blank m) eqn:Hb.
    + now rewrite run_show_blank.
    + rewrite exec_enough by (simpl; unfold qlen; lia).
      apply run_show_type.
  - rewrite (run_unfold build now (HookHideToast callback)).
    unfold dispatch, UseToast.hideToast.
    apply exec_enough. simpl. unfold qlen. lia.
Qed.

(** ** The queue and the waiters of the split manager are never used *)

Lemma public_notOnReady c : public c = true -> notOnReady c.
Proof. destruct c; simpl; intros H; try exact I. discriminate. Qed.

Lemma exec_modular_listeners build now (f : nat) :
  build = modular ->
  forall c w w', notOnReady c -> exec build now f c w = Some w' ->
                 listeners (mgr w') = listeners (mgr w).
Proof.
  intros Hb.
  induction f as [|f IH]; intros c w w' Hc H; [discriminate|].
  exec_cases H c build;
    try (exfalso; exact Hc);
    repeat match goal with
           | E : exec _ _ _ _ _ = Some _ |- _ =>
               apply IH in E; [simpl in E | exact I]
           end;
    repeat match goal with
           | |- context [match ?e with _ => _ end] => destruct e; simpl
           | E : context [match ?e with _ => _ end] |- _ =>
               destruct e; simpl in E
           end;
    congruence.
Qed.

Lemma modular_listeners_empty p w :
  reachable modular p w -> listeners (mgr w) = [].
Proof.
  induction 1 as [|w now c w' _ IH Hp Hrun]; [reflexivity|].
  unfold run in Hrun.
  rewrite (exec_modular_listeners modular now _ eq_refl c w w'
             (public_notOnReady c Hp) Hrun).
  exact IH.
Qed.

(** X4.  In the manager of [managers/ToastManager.ts] the queue and the
    set of readiness waiters are dead: in every reachable state both are
    empty, so [processQueue] (called by the callback of [hide]) never
    changes anything and never displays a toast. *)
Theorem modular_queue_and_waiters_unused (p : ToastComponentProps) (w : World) :
  reachable modular p w ->
  queue (mgr w) = []
  /\ listeners (mgr w) = []
  /\ forall now, run modular now MgrProcessQueue w = Some w.
Proof.
  intros Hr. pose proof (modular_queue_empty p w Hr) as Hq.
  split; [exact Hq|]. split; [exact (modular_listeners_empty p w Hr)|].
  intros now. rewrite run_processQueue. now rewrite drain_empty.
Qed.

Lemma modular_queue_and_waiters_unused_witness :
  queue (mgr onDisplayA) = []
  /\ listeners (mgr onDisplayA) = []
  /\ run modular 1000500 MgrProcessQueue onDisplayA = Some onDisplayA.
Proof.
  destruct (modular_queue_and_waiters_unused noProps onDisplayA
              onDisplayA_reachable) as (Hq & Hl & Hd).
  split; [exact Hq|]. split; [exact Hl | exact (Hd 1000500)].
Defined.

(** ** Registration in [src/Toast.tsx] is for good *)

Lemma exec_monolith_registered build now (f : nat) :
  build = monolith ->
  forall c w w', exec build now f c w = Some w' ->
                 toastRef (mgr w) <> None -> toastRef (mgr w') <> None.
Proof.
  intros Hb.
  induction f as [|f IH]; intros c w w' H Hw; [discriminate|].
  exec_cases H c build;
    try match goal with
        | E : forEach _ _ _ = Some _ |- _ =>
            pose proof (forEach_inv (fun w => toastRef (mgr w) <> None) _ _
                          (fun a w w' E' => IH _ _ _ E') _ _ E
                          ltac:(simpl; discriminate))
        end;
    repeat match goal with
           | E : exec _ _ _ _ _ = Some ?w2 |- toastRef (mgr ?w2) <> None =>
               apply (IH _ _ _ E); simpl
           | |- context [match ?e with _ => _ end] => destruct e; simpl
           end;
    try assumption; try discriminate; try congruence.
Qed.

Lemma runAll_monolith_registered (script : list (Z * Call)) :
  forall w w', runAll monolith script w = Some w' ->
               toastRef (mgr w) <> None -> toastRef (mgr w') <> None.
Proof.
  induction script as [|[now c] script IH]; simpl; intros w w' H Hw.
  - now injection H as <-.
  - destruct (run monolith now c w) as [w1|] eqn:E; simpl in H; [|discriminate].
    apply (IH w1 w' H).
    exact (exec_monolith_registered monolith now _ eq_refl c w w1 E Hw).
Qed.

(** X5.  In the manager of [src/Toast.tsx] a driver, once registered,
    stays registered: no call, [setToastRef(null)] included, and no
    sequence of calls ever makes [toastRef] null again. *)
Theorem registration_is_permanent (script : list (Z * Call)) (w w' : World) :
  toastRef (mgr w) <> None ->
  runAll monolith script w = Some w' ->
  toastRef (mgr w') <> None.
Proof. intros Hw H. exact (runAll_monolith_registered script w w' H Hw). Qed.

Lemma registration_is_permanent_witness :
  exists w',
    runAll monolith [(5000, MgrSetToastRef None); (6000, MgrHide None)] waitingB
    = Some w'
    /\ toastRef (mgr w') <> None.
Proof.
  eexists. split; [vm_compute; reflexivity|].
  apply (registration_is_permanent
           [(5000, MgrSetToastRef None); (6000, MgrHide None)] waitingB).
  - discriminate.
  - vm_compute. reflexivity.
Defined.

(** ** The readiness waiters of [src/Toast.tsx] *)

Lemma exec_monolith_waiters build now (f : nat) :
  build = monolith ->
  forall c w w', exec build now f c w = Some w' ->
                 waitersBefore c w -> waitersOk w'.
Proof.
  intros Hb.
  induction f as [|f IH]; intros c w w' H Hw; [discriminate|].
  unfold waitersOk in *.
  exec_cases H c build;
    try match goal with
        | E : forEach _ _ _ = Some ?w1 |- _ =>
            pose proof (forEach_inv (fun w => toastRef (mgr w) <> None) _ _
                          (fun a w w' E' =>
                             exec_monolith_registered monolith now f eq_refl
                               _ _ _ E') _ _ E
                          ltac:(simpl; discriminate))
        end;
    unfold ToastManager.push in *; simpl in *;
    repeat match goal with
           | E : exec _ _ _ _ _ = Some ?w2
             |- match toastRef (mgr ?w2) with _ => _ end =>
               apply (IH _ _ _ E); simpl
           | _ => progress (unfold waitersOk in *; simpl in * )
           | E : toastRef _ = _ |- _ => rewrite E in *; simpl in *
           | |- context [match ?e with _ => _ end] => destruct e eqn:?; simpl in *
           | E : context [match ?e with _ => _ end] |- _ =>
               destruct e eqn:?; simpl in *
           end;
    rewrite ?length_app in *; simpl in *;
    try assumption; try reflexivity; try congruence; try lia.
Qed.

Lemma reachable_waitersOk p w : reachable monolith p w -> waitersOk w.
Proof.
  induction 1 as [|w now c w' _ IH Hp Hrun].
  - unfold waitersOk. simpl. lia.
  - refine (exec_monolith_waiters monolith now _ eq_refl c w w' Hrun _).
    destruct c; try exact IH. discriminate.
Qed.

(** X6.  In the manager of [src/Toast.tsx] the readiness waiters never
    pile up: once a driver is registered there is none, and before that
    there are no more of them than queued requests, hence at most 2. *)
Theorem waiters_are_bounded (p : ToastComponentProps) (w : World) :
  reachable monolith p w ->
  (toastRef (mgr w) <> None -> listeners (mgr w) = [])
  /\ (length (listeners (mgr w)) <= length (queue (mgr w)))%nat
  /\ (length (listeners (mgr w)) <= MAX_QUEUE_SIZE)%nat.
Proof.
  intros Hr. pose proof (reachable_waitersOk p w Hr) as Hw.
  pose proof (reachable_queueOk monolith p w Hr) as [Hq _].
  unfold waitersOk in Hw.
  destruct (toastRef (mgr w)).
  - rewrite Hw. simpl. repeat split; lia.
  - split; [congruence|]. split; lia.
Qed.

Lemma waiters_are_bounded_witness :
  exists w,
    runAll monolith
      [(1000000, MgrShow (js "A") None None);
       (1000001, MgrShow (js "B") None None);
       (1000002, MgrShow (js "C") None None)] (initialWorld noProps) = Some w
    /\ length (listeners (mgr w)) = 2%nat
    /\ (length (listeners (mgr w)) <= MAX_QUEUE_SIZE)%nat.
Proof.
  eexists. split; [vm_compute; reflexivity|]. split; [reflexivity|].
  refine (proj2 (proj2 (waiters_are_bounded noProps _ _))).
  eapply (reachable_runAll monolith noProps
            [(1000000, MgrShow (js "A") None None);
             (1000001, MgrShow (js "B") None None);
             (1000002, MgrShow (js "C") None None)] eq_refl
            (initialWorld noProps));
    [apply reachable_init | vm_compute; reflexivity].
Defined.

(** ** When [show] displays *)

Lemma show_not_accepted build now m ty o w :
  ~ accepts now m w ->
  exists w',
    run build now (MgrShow m ty o) w = Some w'
    /\ trace w' = trace w /\ cmp w' = cmp w.
Proof.
  intros Hn.
  destruct (blank m) eqn:Hb.
  { exists w. split; [now apply run_show_blank | split; reflexivity]. }
  destruct (Z.ltb_spec (now - lastToastTime (mgr w)) THROTTLE_DELAY) as [Ht|Ht].
  { destruct build.
    - destruct (show_monolith_queued now m ty o w Hb (or_intror Ht))
        as (w' & Hr & Htr & Hc & _).
      exists w'. auto.
    - exists w. split; [|split; reflexivity].
      apply show_modular_rejected. right. right. exact Ht. }
  destruct (isAnimating (mgr w)) eqn:Ha.
  { destruct build.
    - destruct (show_monolith_queued now m ty o w Hb (or_introl Ha))
        as (w' & Hr & Htr & Hc & _).
      exists w'. auto.
    - exists w. split; [|split; reflexivity].
      apply show_modular_rejected. right. left. exact Ha. }
  destruct (toastRef (mgr w)) as [ref|] eqn:Er.
  { exfalso. apply Hn. repeat split; try assumption. congruence. }
  apply Z.ltb_ge in Ht.
  rewrite run_unfold. unfold dispatch. destruct build.
  - unfold Monolith.show. rewrite valid_not_blank, Hb, Ht, Er. simpl.
    destruct (length (queue (mgr w)) <? MAX_QUEUE_SIZE)%nat.
    + rewrite exec_onReady_unregistered by (assumption || lia).
      eexists. split; [reflexivity|]. split; reflexivity.
    + eexists. split; [reflexivity|]. split; reflexivity.
  - unfold Modular.show. rewrite Hb, Ht, Ha. simpl. rewrite Er.
    eexists. split; [reflexivity|]. split; reflexivity.
Qed.

(** X7.  [show] displays its request at once exactly when the message is
    not blank, at least 300 ms have passed since [lastToastTime], nothing
    is animating and a driver is registered.  It then leaves the queue as
    it is, so the new request is shown ahead of those already queued; in
    every other case the call shows nothing and does not touch the
    component. *)
Theorem show_displays_exactly_when (build : Build) (now : Z) (m : jsstring)
    (ty : option ToastType) (o : option ToastOptions) (w : World) :
  exists w',
    run build now (MgrShow m ty o) w = Some w'
    /\ (accepts now m w ->
        trace w' = trace w
                   ++ [presented (props (cmp w)) (mkRequest m (typeDefault ty) o)]
        /\ queue (mgr w') = queue (mgr w)
        /\ isAnimating (mgr w') = true
        /\ lastToastTime (mgr w') = now)
    /\ (~ accepts now m w -> trace w' = trace w /\ cmp w' = cmp w).
Proof.
  destruct (blank m) eqn:Hb;
    [| destruct (Z.ltb_spec (now - lastToastTime (mgr w)) THROTTLE_DELAY) as [Ht|Ht];
       [| destruct (isAnimating (mgr w)) eqn:Ha;
          [| destruct (toastRef (mgr w)) as [ref|] eqn:Er ] ] ].
  5: {
    destruct (show_not_accepted build now m ty o w) as (w' & Hr & Htr & Hc).
    { intros (_ & _ & _ & H). congruence. }
    exists w'. split; [exact Hr|]. split; [|auto].
    intros (_ & _ & _ & H). congruence. }
  4: {
    exists (admission now (mkRequest m (typeDefault ty) o) w).
    split.
    { apply exec_show_accepted; try assumption; [congruence | unfold enough; lia]. }
    split.
    - intros _. rewrite trace_admission, mgr_admission. repeat split.
    - intros Hn. exfalso. apply Hn. repeat split; try assumption. congruence. }
  all: destruct (show_not_accepted build now m ty o w) as (w' & Hr & Htr & Hc);
    [ intros (H1 & H2 & H3 & H4); try congruence; lia
    | exists w'; split; [exact Hr|]; split; [|auto];
      intros (H1 & H2 & H3 & H4); try congruence; lia ].
Qed.

Lemma show_displays_exactly_when_witness :
  exists w',
    run monolith 1000000 (MgrShow (js "A") None None) waitingB = Some w'
    /\ trace w' = [Presented (js "A") info 400 4000]
    /\ map message (queue (mgr w')) = [js "B"].
Proof.
  destruct (show_displays_exactly_when monolith 1000000 (js "A") None None waitingB)
    as (w' & Hr & Hyes & _).
  exists w'. split; [exact Hr|].
  destruct Hyes as (Ht & Hq & _).
  - repeat split; [vm_compute; discriminate | discriminate].
  - split; [exact Ht|]. now rewrite Hq.
Defined.

(** ** The end of the exit animation in [src/Toast.tsx] *)

Lemma qlen_drain now w : (qlen (drain now w) <= qlen w)%nat.
Proof.
  pose proof (run_processQueue monolith now w) as H.
  unfold run in H. apply exec_qlen in H. simpl in H. lia.
Qed.

Lemma run_finish_monolith_callback now w a v cb :
  animation (transY (cmp w)) = Some a ->
  onFinish a = Some (completeHide cb) ->
  toValue a = v ->
  run monolith now (FinishAnimation TransY) w
  = Some (completed now cb (onCmp (assign TransY v) w)).
Proof.
  intros Ha Hf <-. rewrite run_unfold. unfold dispatch, Toast.finishAnimation.
  simpl shared. rewrite Ha, Hf.
  rewrite exec_plus. unfold dispatch, Toast.completeHideAnimation.
  rewrite (exec_enough monolith now _ (CmpUpdateAnimationStatus false))
    by (simpl; unfold qlen; simpl; lia).
  rewrite run_update_false_monolith, run_processQueue. cbn [bind].
  unfold completed.
  generalize (qlen_drain now (mark false (onCmp (assign TransY (toValue a)) w))).
  generalize (drain now (mark false (onCmp (assign TransY (toValue a)) w))).
  intros x Hx.
  assert (Hq : (qlen x <= length (queue (mgr w)))%nat) by exact Hx.
  destruct cb as [[c|callback]|]; try reflexivity.
  apply exec_Invoke_manager. unfold qlen in *. simpl. lia.
Qed.

Lemma config_reset w :
  text (config (cmp (onCmp Toast.resetConfig w))) = None
  /\ isAnimatingRef (cmp (onCmp Toast.resetConfig w)) = isAnimatingRef (cmp w)
  /\ mgr (onCmp Toast.resetConfig w) = mgr w
  /\ trace (onCmp Toast.resetConfig w) = trace w.
Proof. repeat split. Qed.

(** X8.  In [src/Toast.tsx], a request displayed from the queue when the
    previous toast's exit animation ends is blanked at once: the drain of
    [updateAnimationStatus(false)] hands it to [showToast], and
    [resetConfig], which comes next in [completeHideAnimation], clears the
    text it has just set.  The request has left the queue and both busy
    flags are up, yet the component renders nothing. *)
Theorem drained_toast_renders_nothing (now : Z) (w : World) (a : Animation)
    (cb : option HideCallback) (r : Request) (rest : list Request) :
  animation (transY (cmp w)) = Some a ->
  onFinish a = Some (completeHide cb) ->
  ownCallback cb ->
  toastRef (mgr w) <> None ->
  queue (mgr w) = r :: rest ->
  valid r ->
  exists w',
    run monolith now (FinishAnimation TransY) w = Some w'
    /\ trace w' = trace w ++ presented (props (cmp w)) r :: calls cb
    /\ queue (mgr w') = rest
    /\ isAnimating (mgr w') = true
    /\ isAnimatingRef (cmp w') = true
    /\ rendersNull (config (cmp w')) = true.
Proof.
  intros Ha Hf Hcb Hr Hq Hv.
  rewrite (run_finish_monolith_callback now w a (toValue a) cb Ha Hf eq_refl).
  eexists. split; [reflexivity|].
  unfold completed.
  rewrite (drain_head now r rest
             (mark false (onCmp (assign TransY (toValue a)) w)) Hr eq_refl Hq Hv).
  assert (Hp : props (cmp (onMgr (set_queue rest)
                             (mark false (onCmp (assign TransY (toValue a)) w))))
               = props (cmp w)) by reflexivity.
  assert (Ht : trace (onMgr (set_queue rest)
                        (mark false (onCmp (assign TransY (toValue a)) w)))
               = trace w) by reflexivity.
  assert (Hm : queue (mgr (onMgr (set_queue rest)
                             (mark false (onCmp (assign TransY (toValue a)) w))))
               = rest) by reflexivity.
  revert Hp Ht Hm.
  generalize (onMgr (set_queue rest)
                (mark false (onCmp (assign TransY (toValue a)) w))).
  intros x Hp Ht Hm.
  pose proof (trace_admission now r x) as Htr. rewrite Hp, Ht in Htr.
  pose proof (mgr_admission now r x) as Hmg.
  pose proof (admission_isAnimatingRef x now r) as Hrf.
  destruct (config_reset (admission now r x)) as (Hc1 & Hc2 & Hc3 & Hc4).
  revert Htr Hmg Hrf Hc1 Hc2 Hc3 Hc4.
  generalize (admission now r x). intros y Htr Hmg Hrf Hc1 Hc2 Hc3 Hc4.
  revert Hc1 Hc2 Hc3 Hc4. generalize (onCmp Toast.resetConfig y).
  intros z Hc1 Hc2 Hc3 Hc4.
  assert (Hz : trace z = trace w ++ [presented (props (cmp w)) r]
               /\ queue (mgr z) = rest /\ isAnimating (mgr z) = true
               /\ isAnimatingRef (cmp z) = true
               /\ rendersNull (config (cmp z)) = true).
  { rewrite Hc4, Hc3, Hc2, Hmg, Htr. unfold rendersNull. rewrite Hc1.
    repeat split; assumption. }
  destruct Hz as (Hz1 & Hz2 & Hz3 & Hz4 & Hz5).
  destruct cb as [[c|callback]|]; [| destruct Hcb |].
  - cbn [emit trace mgr cmp calls]. rewrite Hz1, <- app_assoc.
    repeat split; assumption.
  - cbn [calls]. repeat split; assumption.
Qed.

Lemma drained_toast_renders_nothing_witness :
  exists w',
    run monolith 1004901 (FinishAnimation TransY) leavingAThenB = Some w'
    /\ trace w' = [Presented (js "A") info 400 4000;
                   Presented (js "B") info 400 4000]
    /\ queue (mgr w') = []
    /\ isAnimating (mgr w') = true
    /\ isAnimatingRef (cmp w') = true
    /\ rendersNull (config (cmp w')) = true.
Proof.
  exact (drained_toast_renders_nothing 1004901 leavingAThenB
           (withDelay 400 (withTiming (-100) 400 (Some (completeHide None))))
           None (mkRequest (js "B") info None) []
           eq_refl eq_refl I ltac:(discriminate) eq_refl eq_refl).
Defined.

Lemma props_reset w : props (cmp (onCmp Toast.resetConfig w)) = props (cmp w).
Proof. reflexivity. Qed.

Lemma released_parts callback w :
  mgr (released callback w) = set_isAnimating false (mgr w)
  /\ cmp (released callback w) = cmp w
  /\ trace (released callback w)
     = trace w ++ calls (Some (managerCallback callback)).
Proof.
  destruct callback; simpl; repeat split. now rewrite app_nil_r.
Qed.

Lemma text_admission now r w :
  text (config (cmp (admission now r w))) = Some (message r).
Proof. unfold admission, display. now rewrite config_present. Qed.

(** X9.  In [src/Toast.tsx], when a toast dismissed through
    [ToastManager.hide] has gone, the queue is drained twice: once by
    [updateAnimationStatus(false)] and once more by the callback [hide]
    passed, which sets [isAnimating] back to false although the first
    drain has just displayed a request.  With two requests waiting, the
    second replaces the first at once; with one, the manager is left idle
    while the component is animating, and what it shows is blank. *)
Theorem manager_hide_drains_twice (now : Z) (w : World) (a : Animation)
    (callback : option CallbackId) (r1 : Request) (q : list Request) :
  animation (transY (cmp w)) = Some a ->
  onFinish a = Some (completeHide (Some (managerCallback callback))) ->
  toastRef (mgr w) <> None ->
  queue (mgr w) = r1 :: q ->
  Forall valid (r1 :: q) ->
  exists w',
    run monolith now (FinishAnimation TransY) w = Some w'
    /\ trace w' = trace w
                  ++ presented (props (cmp w)) r1
                     :: calls (Some (managerCallback callback))
                     ++ map (presented (props (cmp w))) (firstn 1 q)
    /\ queue (mgr w') = skipn 1 q
    /\ isAnimatingRef (cmp w') = true
    /\ (q = [] ->
        isAnimating (mgr w') = false /\ rendersNull (config (cmp w')) = true)
    /\ (forall r2 rest, q = r2 :: rest ->
        isAnimating (mgr w') = true
        /\ text (config (cmp w')) = Some (message r2)).
Proof.
  intros Ha Hf Hr Hq Hv.
  rewrite (run_finish_monolith_callback now w a (toValue a) _ Ha Hf eq_refl).
  eexists. split; [reflexivity|].
  unfold completed.
  inversion Hv as [|? ? Hv1 Hvq]; subst.
  rewrite (drain_head now r1 q
             (mark false (onCmp (assign TransY (toValue a)) w)) Hr eq_refl Hq Hv1).
  assert (Hp : props (cmp (onMgr (set_queue q)
                             (mark false (onCmp (assign TransY (toValue a)) w))))
               = props (cmp w)) by reflexivity.
  assert (Ht : trace (onMgr (set_queue q)
                        (mark false (onCmp (assign TransY (toValue a)) w)))
               = trace w) by reflexivity.
  assert (Hm : queue (mgr (onMgr (set_queue q)
                             (mark false (onCmp (assign TransY (toValue a)) w))))
               = q) by reflexivity.
  assert (Hx : toastRef (mgr (onMgr (set_queue q)
                                (mark false (onCmp (assign TransY (toValue a)) w))))
               = toastRef (mgr w)) by reflexivity.
  revert Hp Ht Hm Hx.
  generalize (onMgr (set_queue q)
                (mark false (onCmp (assign TransY (toValue a)) w))).
  intros x Hp Ht Hm Hx.
  pose proof (trace_admission now r1 x) as Htr. rewrite Hp, Ht in Htr.
  pose proof (mgr_admission now r1 x) as Hmg. rewrite Hm, Hx in Hmg.
  pose proof (admission_isAnimatingRef x now r1) as Hrf.
  pose proof (props_admission now r1 x) as Hpp. rewrite Hp in Hpp.
  destruct (config_reset (admission now r1 x)) as (Hc1 & Hc2 & Hc3 & Hc4).
  pose proof (props_reset (admission now r1 x)) as Hc5.
  rewrite Hpp in Hc5. rewrite Hrf in Hc2. rewrite Hmg in Hc3. rewrite Htr in Hc4.
  clear Htr Hmg Hrf Hpp.
  revert Hc1 Hc2 Hc3 Hc4 Hc5.
  generalize (onCmp Toast.resetConfig (admission now r1 x)).
  intros z Hc1 Hc2 Hc3 Hc4 Hc5.
  destruct (released_parts callback z) as (Hr1 & Hr2 & Hr3).
  rewrite Hc3 in Hr1. rewrite Hc4 in Hr3.
  assert (Hr4 : props (cmp (released callback z)) = props (cmp w))
    by now rewrite Hr2.
  assert (Hr5 : isAnimatingRef (cmp (released callback z)) = true)
    by now rewrite Hr2.
  assert (Hr6 : text (config (cmp (released callback z))) = None)
    by now rewrite Hr2.
  clear Hc1 Hc2 Hc3 Hc4 Hc5 Hr2.
  revert Hr1 Hr3 Hr4 Hr5 Hr6. generalize (released callback z).
  intros u Hu1 Hu3 Hu4 Hu5 Hu6.
  destruct q as [|r2 rest].
  - rewrite drain_empty by now rewrite Hu1.
    rewrite Hu3, Hu1, <- app_assoc. simpl. rewrite app_nil_r.
    repeat split; try assumption.
    + unfold rendersNull. now rewrite Hu6.
    + discriminate.
    + discriminate.
  - inversion Hvq as [|? ? Hv2 _]; subst.
    rewrite (drain_head now r2 rest u);
      [| rewrite Hu1; exact Hr | now rewrite Hu1 | now rewrite Hu1 | exact Hv2].
    split; [|split; [|split; [|split]]].
    + rewrite trace_admission. cbn [onMgr trace cmp]. rewrite Hu3, Hu4.
      rewrite <- !app_assoc. reflexivity.
    + rewrite mgr_admission. reflexivity.
    + apply admission_isAnimatingRef.
    + discriminate.
    + intros r2' rest' E. injection E as <- <-.
      rewrite mgr_admission, text_admission. split; reflexivity.
Qed.

Lemma manager_hide_drains_twice_witness :
  exists w',
    run monolith 1002800 (FinishAnimation TransY) hidingAThenBC = Some w'
    /\ trace w' = [Presented (js "A") info 400 4000;
                   Presented (js "B") info 400 4000;
                   Called 7%nat;
                   Presented (js "C") info 400 4000]
    /\ queue (mgr w') = []
    /\ text (config (cmp w')) = Some (js "C").
Proof.
  destruct (manager_hide_drains_twice 1002800 hidingAThenBC
              (withDelay 400 (withTiming (-100) 400
                 (Some (completeHide (Some (managerCallback (Some 7%nat)))))))
              (Some 7%nat) (mkRequest (js "B") info None)
              [mkRequest (js "C") info None]
              eq_refl eq_refl ltac:(discriminate) eq_refl
              ltac:(repeat constructor))
    as (w' & Hrun & Ht & Hq & _ & _ & Hnext).
  exists w'. split; [exact Hrun|]. split; [exact Ht|]. split; [exact Hq|].
  exact (proj2 (Hnext _ _ eq_refl)).
Defined.

(** ** The two busy flags *)

Lemma exec_modular_flags build now (f : nat) :
  build = modular ->
  forall c w w', exec build now f c w = Some w' ->
                 flagsBefore c w -> flagsAfter c w'.
Proof.
  intros Hb.
  induction f as [|f IH]; intros c w w' H Hw; [discriminate|].
  unfold flagsAfter, flagsAgree in *.
  exec_cases H c build;
    repeat match goal with
           | E : exec _ _ _ _ _ = Some _ |- _ =>
               apply IH in E;
               [ simpl in E; destruct E as [? ?]
               | solve [ simpl; unfold flagsAgree in *; simpl in *;
                         repeat match goal with
                                | |- context [match ?e with _ => _ end] =>
                                    destruct e; simpl
                                end;
                         first [ exact I | congruence
                               | destruct (isAnimatingRef (cmp w));
                                 simpl in *; congruence ] ] ]
           end;
    unfold flagsAgree in *; simpl in *;
    repeat match goal with
           | |- context [match ?e with _ => _ end] => destruct e; simpl
           | E : context [match ?e with _ => _ end] |- _ =>
               destruct e; simpl in E
           end;
    try match goal with v : SharedId |- _ => destruct v; simpl end;
    split; first [ exact I | congruence ].
Qed.

Lemma fromOutside_flagsBefore c w :
  fromOutside c = true -> flagsAgree w -> flagsBefore c w.
Proof. destruct c; simpl; intros Hc Hw; try exact I; try exact Hw; discriminate. Qed.

Lemma runAll_modular_flags script : forall w w',
  Forall (fun tc => fromOutside (snd tc) = true) script ->
  flagsAgree w -> runAll modular script w = Some w' -> flagsAgree w'.
Proof.
  induction script as [|[now c] script IH]; intros w w' Hs Hw H.
  - simpl in H. now injection H as <-.
  - inversion Hs as [|? ? Hc Hrest]; subst. simpl in Hc, H.
    destruct (run modular now c w) as [w1|] eqn:E; [|discriminate].
    simpl in H. apply (IH w1 w' Hrest); [|exact H].
    unfold run in E.
    exact (proj1 (exec_modular_flags modular now _ eq_refl c w w1 E
                    (fromOutside_flagsBefore c w Hc Hw))).
Qed.

(** X10.  In the split build ([managers/ToastManager.ts] with
    [components/Toast.tsx]) the manager's [isAnimating] and the
    component's [isAnimating.current] agree whenever a call has returned,
    whatever the application, the timers and the animations do, as long as
    [setAnimating] is left to the component. *)
Theorem modular_flags_agree (p : ToastComponentProps)
    (script : list (Z * Call)) (w : World) :
  Forall (fun tc => fromOutside (snd tc) = true) script ->
  runAll modular script (initialWorld p) = Some w ->
  isAnimating (mgr w) = isAnimatingRef (cmp w).
Proof.
  intros Hs H.
  exact (runAll_modular_flags script (initialWorld p) w Hs eq_refl H).
Qed.

Lemma modular_flags_agree_witness :
  isAnimating (mgr onDisplayA) = true
  /\ isAnimating (mgr onDisplayA) = isAnimatingRef (cmp onDisplayA).
Proof.
  split; [reflexivity|].
  apply (modular_flags_agree noProps displayA onDisplayA).
  - repeat constructor.
  - vm_compute. reflexivity.
Defined.

(** ** Draining twice *)

Lemma drainList_settled now q : forall w,
  queue (mgr w) = q ->
  canDrain (drainList now q w) = false \/ queue (mgr (drainList now q w)) = [].
Proof.
  induction q as [|r rest IH]; intros w Hq; [right; exact Hq|].
  simpl. destruct (blank (message r)).
  - apply IH. reflexivity.
  - left. unfold canDrain. now rewrite mgr_admission.
Qed.

Lemma drain_settled now w :
  canDrain (drain now w) = false \/ queue (mgr (drain now w)) = [].
Proof.
  unfold drain. destruct (canDrain w) eqn:Hc; [|left; exact Hc].
  now apply drainList_settled.
Qed.

Lemma drain_idem now now' w : drain now' (drain now w) = drain now w.
Proof.
  destruct (drain_settled now w) as [H | H].
  - unfold drain at 1. now rewrite H.
  - now apply drain_empty.
Qed.

Lemma admission_set_listeners now r l w :
  admission now r (onMgr (set_listeners l) w)
  = onMgr (set_listeners l) (admission now r w).
Proof.
  destruct w as [m [p cfg tm ia ty tw to tms nid] tr].
  destruct tm; vm_compute; reflexivity.
Qed.

Lemma drainList_set_listeners now l q : forall w,
  drainList now q (onMgr (set_listeners l) w)
  = onMgr (set_listeners l) (drainList now q w).
Proof.
  induction q as [|r rest IH]; intros w; [reflexivity|].
  simpl. destruct (blank (message r)).
  - exact (IH (onMgr (set_queue rest) w)).
  - exact (admission_set_listeners now r l (onMgr (set_queue rest) w)).
Qed.

Lemma drain_set_listeners now l w :
  drain now (onMgr (set_listeners l) w) = onMgr (set_listeners l) (drain now w).
Proof.
  unfold drain.
  change (canDrain (onMgr (set_listeners l) w)) with (canDrain w).
  change (queue (mgr (onMgr (set_listeners l) w))) with (queue (mgr w)).
  destruct (canDrain w); [apply drainList_set_listeners | reflexivity].
Qed.

Lemma forEach_notify_drain build now (ls : list Listener) : forall w,
  forEach (fun l => run build now (Notify l)) ls w
  = Some (match ls with [] => w | _ :: _ => drain now w end).
Proof.
  induction ls as [|l ls IH]; intros w; [reflexivity|].
  simpl. rewrite run_notify. simpl. rewrite IH.
  destruct ls; [reflexivity | now rewrite drain_idem].
Qed.

Lemma run_setToastRef_monolith now r w :
  run monolith now (MgrSetToastRef (Some r)) w
  = Some (onMgr (set_listeners []) (drain now (onMgr (set_toastRef (Some r)) w))).
Proof.
  rewrite run_unfold. unfold dispatch, Monolith.setToastRef.
  rewrite forEach_notify by (unfold qlen; simpl; lia).
  rewrite forEach_notify_drain. cbn [bind].
  assert (Hq : (qlen (drain now (onMgr (set_toastRef (Some r)) w))
                <= length (queue (mgr w)))%nat)
    by exact (qlen_drain now (onMgr (set_toastRef (Some r)) w)).
  destruct (listeners (mgr (onMgr (set_toastRef (Some r)) w))).
  - rewrite exec_processQueue by (unfold qlen; simpl; lia).
    now rewrite drain_set_listeners.
  - rewrite exec_processQueue by (unfold qlen in *; simpl; lia).
    now rewrite drain_set_listeners, drain_idem.
Qed.

(** X11.  [processQueue] is idempotent: run again right after itself, at
    whatever time, it changes nothing.  A drain stops only when the queue
    is empty, when it has displayed a request (the manager is then busy),
    or when its guard fails, and in each case the next drain finds nothing
    to do. *)
Theorem processQueue_idempotent (build : Build) (now now' : Z) (w : World) :
  exists w1,
    run build now MgrProcessQueue w = Some w1
    /\ run build now' MgrProcessQueue w1 = Some w1
    /\ (isAnimating (mgr w1) = true \/ toastRef (mgr w1) = None
        \/ queue (mgr w1) = []).
Proof.
  exists (drain now w). split; [apply run_processQueue|].
  split; [rewrite run_processQueue; now rewrite drain_idem|].
  destruct (drain_settled now w) as [H | H]; [|now right; right].
  unfold canDrain in H.
  destruct (isAnimating (mgr (drain now w))); [now left|].
  destruct (toastRef (mgr (drain now w))); [discriminate | now right; left].
Qed.

(** X12.  In [src/Toast.tsx], registering a driver comes to storing it,
    draining once and clearing the waiters: the drains the waiters attempt
    add nothing to the one [setToastRef] makes itself, so the outcome does
    not depend on how many waiters there were. *)
Theorem registering_drains_once (now : Z) (r : ToastRef) (w : World) :
  run monolith now (MgrSetToastRef (Some r)) w
  = Some (onMgr (set_listeners []) (drain now (onMgr (set_toastRef (Some r)) w)))
  /\ run monolith now (MgrSetToastRef (Some r)) w
     = run monolith now (MgrSetToastRef (Some r)) (onMgr (set_listeners []) w).
Proof.
  split; [apply run_setToastRef_monolith|].
  rewrite !run_setToastRef_monolith.
  change (onMgr (set_toastRef (Some r)) (onMgr (set_listeners []) w))
    with (onMgr (set_listeners []) (onMgr (set_toastRef (Some r)) w)).
  rewrite drain_set_listeners. reflexivity.
Qed.

(** ** Mounting and unmounting the [Toaster] *)

Lemma run_register_again now r' w :
  toastRef (mgr w) <> None ->
  listeners (mgr w) = [] ->
  canDrain w = false \/ queue (mgr w) = [] ->
  run monolith now (MgrSetToastRef (Some r')) w
  = Some (onMgr (set_toastRef (Some r')) w).
Proof.
  intros Hr Hl Hs. rewrite run_setToastRef_monolith.
  assert (Hd : drain now (onMgr (set_toastRef (Some r')) w)
               = onMgr (set_toastRef (Some r')) w).
  { destruct Hs as [Hs | Hs].
    - apply drain_busy. unfold canDrain in Hs.
      destruct (toastRef (mgr w)); [|congruence].
      rewrite andb_true_r in Hs. simpl. now destruct (isAnimating (mgr w)).
    - apply drain_empty. exact Hs. }
  rewrite Hd. destruct w as [[tr ls ia q lt] k t]. simpl in *. now subst.
Qed.

(** X13.  Mounting the [Toaster] registers twice, first the imperative
    handle through the ref callback and then [refObject] through the
    effect of [Toast]; the second registration only replaces the driver:
    nothing more is displayed or drained.  Unmounting registers [null]:
    the split manager forgets the driver, the manager of [src/Toast.tsx]
    keeps pointing at the unmounted component. *)
Theorem mount_and_unmount (build : Build) (now : Z) (w : World) :
  (exists w1,
     run build now (MgrSetToastRef (Some imperativeHandle)) w = Some w1
     /\ mount build now w = Some (onMgr (set_toastRef (Some refObject)) w1))
  /\ unmount build now w
     = Some (match build with
             | monolith => w
             | modular => onMgr (set_toastRef None) w
             end).
Proof.
  split; [|destruct build; reflexivity].
  unfold mount, toasterRef. destruct build.
  - rewrite run_setToastRef_monolith. eexists. split; [reflexivity|].
    cbn [bind]. apply run_register_again.
    + cbn [onMgr mgr set_listeners toastRef]. rewrite toastRef_drain. discriminate.
    + reflexivity.
    + destruct (drain_settled now (onMgr (set_toastRef (Some imperativeHandle)) w))
        as [H | H]; [left | right]; exact H.
  - eexists. split; reflexivity.
Qed.

(** ** Timers the component loses track of *)

Lemma filter_fresh n id (l : list Timer) :
  Forall (fun t => (timerId t < n)%nat) l -> (n <= id)%nat ->
  filter (fun t => negb (Nat.eqb (timerId t) id)) l = l.
Proof.
  intros Hl Hn. induction Hl as [|t l Ht _ IH]; [reflexivity|].
  simpl. destruct (Nat.eqb_spec (timerId t) id); [lia|]. simpl. now rewrite IH.
Qed.

Lemma findTimer_app_fresh n id (l l' : list Timer) :
  Forall (fun t => (timerId t < n)%nat) l -> (n <= id)%nat ->
  findTimer id (l ++ l') = findTimer id l'.
Proof.
  intros Hl Hn. induction Hl as [|t l Ht _ IH]; [reflexivity|].
  simpl. destruct (Nat.eqb_spec (timerId t) id); [lia | exact IH].
Qed.

Lemma run_RefShow build now m ty o w :
  blank m = false -> run build now (RefShow m ty o) w = Some (display m ty o w).
Proof. intros Hb. apply exec_RefShow; [exact Hb | unfold enough; lia]. Qed.

Lemma run_RefHide_shown build now cb w :
  shown w ->
  run build now (RefHide cb) w = Some (retract (driverConfig w) cb w).
Proof.
  intros Hs. rewrite run_unfold. unfold dispatch.
  apply exec_hideToast_shown; [exact Hs | lia].
Qed.

Lemma present_timers seen text ty a d w :
  timer (cmp w) = None ->
  timers (cmp (present seen text ty a d w))
  = timers (cmp w) ++ [mkTimer (nextTimerId (cmp w)) 0 (nextCycle seen a d)]
  /\ timer (cmp (present seen text ty a d w)) = None.
Proof. intros H. unfold present. rewrite H. split; [reflexivity | exact H]. Qed.

Lemma ticked_timers id seen a d w :
  timers (cmp (ticked id seen a d w))
  = filter (fun t => negb (Nat.eqb (timerId t) id)) (timers (cmp w))
    ++ [mkTimer (nextTimerId (cmp w)) d (autoHide seen)]
  /\ timer (cmp (ticked id seen a d w)) = Some (nextTimerId (cmp w))
  /\ nextTimerId (cmp (ticked id seen a d w)) = S (nextTimerId (cmp w)).
Proof. repeat split. Qed.

Lemma retract_timers_tracked seen cb id w :
  timer (cmp w) = Some id ->
  timers (cmp (retract seen cb w))
  = filter (fun t => negb (Nat.eqb (timerId t) id)) (timers (cmp w)).
Proof. intros H. unfold retract. rewrite H. reflexivity. Qed.

Lemma cleared_timers id n (l l' : list Timer) :
  Forall (fun t => (timerId t < n)%nat) l -> (n <= id)%nat ->
  filter (fun t => negb (Nat.eqb (timerId t) id)) (l ++ l')
  = l ++ filter (fun t => negb (Nat.eqb (timerId t) id)) l'.
Proof.
  intros Hl Hn. rewrite filter_app. f_equal. exact (filter_fresh n id l Hl Hn).
Qed.

Lemma cleared_first id d task (u : Timer) :
  timerId u <> id ->
  filter (fun t => negb (Nat.eqb (timerId t) id)) [mkTimer id d task; u] = [u].
Proof.
  intros H. simpl. rewrite Nat.eqb_refl. simpl.
  apply Nat.eqb_neq in H. now rewrite H.
Qed.

Lemma cleared_last id d task (u : Timer) :
  timerId u <> id ->
  filter (fun t => negb (Nat.eqb (timerId t) id)) [u; mkTimer id d task] = [u].
Proof.
  intros H. simpl. rewrite Nat.eqb_refl. simpl.
  apply Nat.eqb_neq in H. now rewrite H.
Qed.

Lemma driverConfig_eq w w' :
  toastRef (mgr w') = toastRef (mgr w) -> props (cmp w') = props (cmp w) ->
  driverConfig w' = driverConfig w.
Proof. intros H1 H2. unfold driverConfig, seenBy. now rewrite H1, H2. Qed.

Lemma driverConfig_present seen text ty a d w :
  driverConfig (present seen text ty a d w) = driverConfig w.
Proof.
  apply driverConfig_eq; [now rewrite mgr_present | apply props_present].
Qed.

Lemma driverConfig_ticked id seen a d w :
  driverConfig (ticked id seen a d w) = driverConfig w.
Proof. reflexivity. Qed.

Lemma two_shows_timers build (w : World) (t1 t2 t3 t4 t5 : Z)
    (m1 m2 : jsstring) (ty1 ty2 : ToastType) (o1 o2 : option ToastOptions) :
  freshTimers (cmp w) ->
  timer (cmp w) = None ->
  blank m1 = false -> blank m2 = false ->
  exists w',
    runAll build
      [(t1, RefShow m1 ty1 o1); (t2, RefShow m2 ty2 o2);
       (t3, FireTimer (nextTimerId (cmp w)));
       (t4, FireTimer (S (nextTimerId (cmp w))));
       (t5, RefHide None)] w = Some w'
    /\ timer (cmp w') = None
    /\ timers (cmp w')
       = timers (cmp w)
         ++ [mkTimer (S (S (nextTimerId (cmp w))))
               (resolveDuration o1 (props (cmp w))) (autoHide (driverConfig w))].
Proof.
  intros Hf Ht Hb1 Hb2.
  set (id := nextTimerId (cmp w)).
  set (seen := driverConfig w).
  set (a1 := resolveAnimationDuration o1 (props (cmp w))).
  set (d1 := resolveDuration o1 (props (cmp w))).
  cbn [runAll]. rewrite run_RefShow by exact Hb1. cbn [bind].
  unfold display at 1. fold seen a1 d1.
  destruct (present_timers seen m1 ty1 a1 d1 w Ht) as (Hs1 & Hr1).
  pose proof (present_nextTimerId seen m1 ty1 a1 d1 w) as Hn1.
  fold id in Hn1, Hs1.
  pose proof (props_present seen m1 ty1 a1 d1 w) as Hp1.
  pose proof (driverConfig_present seen m1 ty1 a1 d1 w) as Hd1. fold seen in Hd1.
  revert Hs1 Hr1 Hn1 Hp1 Hd1. generalize (present seen m1 ty1 a1 d1 w).
  intros s1 Hs1 Hr1 Hn1 Hp1 Hd1.
  rewrite run_RefShow by exact Hb2. cbn [bind].
  unfold display at 1. rewrite Hp1, Hd1.
  set (a2 := resolveAnimationDuration o2 (props (cmp w))).
  set (d2 := resolveDuration o2 (props (cmp w))).
  destruct (present_timers seen m2 ty2 a2 d2 s1 Hr1) as (Hs2 & Hr2).
  pose proof (present_nextTimerId seen m2 ty2 a2 d2 s1) as Hn2.
  pose proof (present_isAnimatingRef seen m2 ty2 a2 d2 s1) as Hi2.
  pose proof (driverConfig_present seen m2 ty2 a2 d2 s1) as Hd2.
  rewrite Hd1 in Hd2.
  rewrite Hn1 in Hn2, Hs2. rewrite Hs1, <- app_assoc in Hs2. cbn [app] in Hs2.
  clear Hs1 Hr1 Hn1 Hp1 Hd1.
  revert Hs2 Hr2 Hn2 Hi2 Hd2. generalize (present seen m2 ty2 a2 d2 s1).
  intros s2 Hs2 Hr2 Hn2 Hi2 Hd2.
  assert (Hfind1 : findTimer id (timers (cmp s2)) = Some (nextCycle seen a1 d1)).
  { rewrite Hs2, (findTimer_app_fresh id id) by (exact Hf || lia).
    simpl. now rewrite Nat.eqb_refl. }
  rewrite (run_fireTimer_nextCycle build t3 id seen a1 d1 s2 Hfind1). cbn [bind].
  destruct (ticked_timers id seen a1 d1 s2) as (Hs3 & Hr3 & Hn3).
  pose proof (ticked_isAnimatingRef id seen a1 d1 s2) as Hi3.
  pose proof (driverConfig_ticked id seen a1 d1 s2) as Hd3. rewrite Hd2 in Hd3.
  rewrite Hi2 in Hi3. rewrite Hn2 in Hs3, Hr3, Hn3.
  rewrite Hs2, (cleared_timers id id) in Hs3 by (exact Hf || lia).
  rewrite cleared_first in Hs3 by (simpl; lia).
  rewrite <- app_assoc in Hs3. cbn [app] in Hs3.
  clear Hs2 Hr2 Hn2 Hi2 Hd2 Hfind1.
  revert Hs3 Hr3 Hn3 Hi3 Hd3. generalize (ticked id seen a1 d1 s2).
  intros s3 Hs3 Hr3 Hn3 Hi3 Hd3.
  assert (Hfind2 : findTimer (S id) (timers (cmp s3)) = Some (nextCycle seen a2 d2)).
  { rewrite Hs3, (findTimer_app_fresh id (S id)) by (exact Hf || lia).
    simpl. now rewrite Nat.eqb_refl. }
  rewrite (run_fireTimer_nextCycle build t4 (S id) seen a2 d2 s3 Hfind2).
  cbn [bind].
  destruct (ticked_timers (S id) seen a2 d2 s3) as (Hs4 & Hr4 & Hn4).
  pose proof (ticked_isAnimatingRef (S id) seen a2 d2 s3) as Hi4.
  pose proof (driverConfig_ticked (S id) seen a2 d2 s3) as Hd4.
  rewrite Hd3 in Hd4.
  rewrite Hi3 in Hi4. rewrite Hn3 in Hs4, Hr4, Hn4.
  rewrite Hs3, (cleared_timers (S id) id) in Hs4 by (exact Hf || lia).
  rewrite cleared_first in Hs4 by (simpl; lia).
  rewrite <- app_assoc in Hs4. cbn [app] in Hs4.
  clear Hs3 Hr3 Hn3 Hi3 Hd3 Hfind2.
  revert Hs4 Hr4 Hn4 Hi4 Hd4. generalize (ticked (S id) seen a2 d2 s3).
  intros s4 Hs4 Hr4 Hn4 Hi4 Hd4.
  rewrite run_RefHide_shown by (left; exact Hi4). cbn [bind]. rewrite Hd4.
  eexists. split; [reflexivity|]. split; [apply retract_timer|].
  rewrite (retract_timers_tracked seen None _ s4 Hr4), Hs4.
  rewrite (cleared_timers (S (S (S id))) id) by (exact Hf || lia).
  rewrite cleared_last by (simpl; lia).
  reflexivity.
Qed.

(** X14.  [showToast] clears only the timer in [timer.current], and that is
    set by the closure of [setTimeout(..., 0)], not by [showToast] itself.
    So when the component's [show] is called twice before the next cycle,
    both closures run, each starts an auto-dismiss timer, and the second
    overwrites [timer.current]: the first timer is no longer tracked.
    [hide] then clears the second only; the first, with the first toast's
    duration, stays pending although nothing is to be shown. *)
Theorem first_auto_dismiss_survives (build : Build) (w : World)
    (t1 t2 t3 t4 t5 : Z) (m1 m2 : jsstring) (ty1 ty2 : ToastType)
    (o1 o2 : option ToastOptions) :
  freshTimers (cmp w) ->
  timer (cmp w) = None ->
  blank m1 = false -> blank m2 = false ->
  exists w',
    runAll build
      [(t1, RefShow m1 ty1 o1); (t2, RefShow m2 ty2 o2);
       (t3, FireTimer (nextTimerId (cmp w)));
       (t4, FireTimer (S (nextTimerId (cmp w))));
       (t5, RefHide None)] w = Some w'
    /\ timer (cmp w') = None
    /\ timers (cmp w')
       = timers (cmp w)
         ++ [mkTimer (S (S (nextTimerId (cmp w))))
               (resolveDuration o1 (props (cmp w))) (autoHide (driverConfig w))]
    /\ findTimer (S (S (nextTimerId (cmp w)))) (timers (cmp w'))
       = Some (autoHide (driverConfig w)).
Proof.
  intros Hf Ht Hb1 Hb2.
  destruct (two_shows_timers build w t1 t2 t3 t4 t5 m1 m2 ty1 ty2 o1 o2
              Hf Ht Hb1 Hb2) as (w' & Hrun & Htm & Hts).
  exists w'. split; [exact Hrun|]. split; [exact Htm|]. split; [exact Hts|].
  rewrite Hts.
  rewrite (findTimer_app_fresh (nextTimerId (cmp w))) by (exact Hf || lia).
  simpl. now rewrite Nat.eqb_refl.
Qed.

Lemma first_auto_dismiss_survives_witness :
  exists w',
    runAll modular
      [(0, RefShow (js "A") info (Some (mkOptions (Some 9000) None)));
       (0, RefShow (js "B") info None);
       (1, FireTimer 1%nat); (1, FireTimer 2%nat);
       (500, RefHide None)] (initialWorld noProps) = Some w'
    /\ timer (cmp w') = None
    /\ timers (cmp w') = [mkTimer 3%nat 9000 (autoHide (mountConfig noProps))].
Proof.
  destruct (first_auto_dismiss_survives modular (initialWorld noProps)
              0 0 1 1 500 (js "A") (js "B") info info
              (Some (mkOptions (Some 9000) None)) None)
    as (w' & Hrun & Htm & Hts & _).
  - constructor.
  - reflexivity.
  - reflexivity.
  - reflexivity.
  - exists w'. split; [exact Hrun|]. split; [exact Htm | exact Hts].
Defined.

(** ** A request queued while nothing is shown *)

Lemma run_fireTimer_none build now id w :
  timers (cmp w) = [] -> run build now (FireTimer id) w = Some w.
Proof.
  intros H. rewrite run_unfold. unfold dispatch, Toast.fireTimer. now rewrite H.
Qed.

Lemma run_finish_none build now v w :
  animation (shared v (cmp w)) = None ->
  run build now (FinishAnimation v) w = Some w.
Proof.
  intros H. rewrite run_unfold. unfold dispatch, Toast.finishAnimation.
  now rewrite H.
Qed.

(** X15.  In [src/Toast.tsx] a request made inside the throttle window is
    queued even when nothing is shown, and no timer is started for it:
    with no timer and no animation pending in the component, nothing will
    ever drain the queue; the request waits until the application calls
    the manager again. *)
Theorem throttled_request_waits (now : Z) (m : jsstring)
    (ty : option ToastType) (o : option ToastOptions) (w : World) :
  blank m = false ->
  throttled now w ->
  isAnimating (mgr w) = false ->
  (length (queue (mgr w)) < MAX_QUEUE_SIZE)%nat ->
  quiet w ->
  exists w',
    run monolith now (MgrShow m ty o) w = Some w'
    /\ queue (mgr w') = queue (mgr w) ++ [mkRequest m (typeDefault ty) o]
    /\ trace w' = trace w
    /\ isAnimating (mgr w') = false
    /\ (forall t id, run monolith t (FireTimer id) w' = Some w')
    /\ (forall t v, run monolith t (FinishAnimation v) w' = Some w').
Proof.
  intros Hb Ht Hi Hl [Hq1 Hq2].
  destruct (show_monolith_queued now m ty o w Hb (or_intror Ht))
    as (w' & Hrun & Htr & Hc & Hia & _ & _ & Hq).
  apply Nat.ltb_lt in Hl. rewrite Hl in Hq.
  exists w'. split; [exact Hrun|]. split; [exact Hq|]. split; [exact Htr|].
  split; [congruence|]. split.
  - intros t id. apply run_fireTimer_none. now rewrite Hc.
  - intros t v. apply run_finish_none. rewrite Hc. apply Hq2.
Qed.

Lemma throttled_request_waits_witness :
  exists w',
    run monolith 100 (MgrShow (js "B") None None) (initialWorld noProps) = Some w'
    /\ map message (queue (mgr w')) = [js "B"]
    /\ trace w' = []
    /\ run monolith 5000 (FireTimer 1%nat) w' = Some w'.
Proof.
  destruct (throttled_request_waits 100 (js "B") None None (initialWorld noProps))
    as (w' & Hrun & Hq & Htr & _ & Hft & _).
  - reflexivity.
  - reflexivity.
  - reflexivity.
  - unfold MAX_QUEUE_SIZE. simpl. lia.
  - split; [reflexivity|]. intros []; reflexivity.
  - exists w'. split; [exact Hrun|]. split; [now rewrite Hq|].
    split; [exact Htr | exact (Hft 5000 1%nat)].
Defined.

(** ** Colours and icons *)

(** X16.  The styling helpers of [components/Toast.tsx] consult the custom
    entries only through [config.type]: while no type is set (as after
    [resetConfig]) they give the "info" icon and colours whatever the
    custom entries are.  And the two colours always come as a pair: both
    from the custom entry of the type, or both from the same row of the
    built-in colours. *)
Theorem styles_follow_the_type
    (customIcons : option (ToastType -> option Style.ImageSource))
    (customColors : option (ToastType -> option Style.Colors))
    (cfg : ToastConfig) :
  (type cfg = None ->
   Style.getIconSource customIcons cfg = Style.ASSETS info
   /\ Style.getBackgroundColor customColors cfg = "#c5c9d2"%string
   /\ Style.getTextColor customColors cfg = "#3f82ce"%string)
  /\ ((exists f t c,
         customColors = Some f /\ type cfg = Some t /\ f t = Some c
         /\ Style.getBackgroundColor customColors cfg = Style.background c
         /\ Style.getTextColor customColors cfg = Style.text c)
      \/ In (Style.getBackgroundColor customColors cfg,
             Style.getTextColor customColors cfg) builtinColors).
Proof.
  split.
  - intros H. unfold Style.getIconSource, Style.getBackgroundColor,
      Style.getTextColor, Style.customEntry. rewrite H.
    destruct customIcons, customColors; repeat split.
  - unfold Style.getBackgroundColor, Style.getTextColor, Style.customEntry.
    destruct customColors as [f|]; destruct (type cfg) as [t|] eqn:E.
    + destruct (f t) as [c|] eqn:Ef.
      * left. exists f, t, c. repeat split. exact Ef.
      * right. destruct t; simpl; auto.
    + right. simpl. auto.
    + right. destruct t; simpl; auto.
    + right. simpl. auto.
Qed.

Lemma styles_follow_the_type_witness :
  Style.getBackgroundColor (Some (fun _ => Some (Style.mkColors "#000" "#fff")))
    (config (initialComponent noProps)) = "#c5c9d2"%string.
Proof.
  exact (proj1 (proj2 (proj1 (styles_follow_the_type None
           (Some (fun _ => Some (Style.mkColors "#000" "#fff")))
           (config (initialComponent noProps))) eq_refl))).
Defined.

(** ** What one lifecycle leaves behind *)

Lemma cleared_only id d task :
  filter (fun t => negb (Nat.eqb (timerId t) id)) [mkTimer id d task] = [].
Proof. simpl. now rewrite Nat.eqb_refl. Qed.

Lemma exiting_timers w t0 r0 :
  freshTimers (cmp w) -> timer (cmp w) = None ->
  timers (cmp (exiting w t0 r0)) = timers (cmp w)
  /\ timer (cmp (exiting w t0 r0)) = None.
Proof.
  intros Hf Ht. unfold exiting.
  set (id := nextTimerId (cmp w)).
  set (seen := driverConfig w).
  set (a := resolveAnimationDuration (options r0) (props (cmp w))).
  set (d := resolveDuration (options r0) (props (cmp w))).
  split; [|apply retract_timer].
  assert (H1 : timers (cmp (admission t0 r0 w))
               = timers (cmp w) ++ [mkTimer id 0 (nextCycle seen a d)]).
  { exact (proj1 (present_timers seen (message r0) (rtype r0) a d
                    (onMgr (set_lastToastTime t0) (onMgr (set_isAnimating true) w))
                    Ht)). }
  pose proof (admission_nextTimerId w t0 r0) as H2. fold id in H2.
  revert H1 H2. generalize (admission t0 r0 w). intros s1 H1 H2.
  destruct (ticked_timers id seen a d s1) as (H3 & H4 & _).
  rewrite H2 in H3, H4.
  rewrite H1, (cleared_timers id id), cleared_only, app_nil_r in H3
    by (exact Hf || lia).
  clear H1 H2. revert H3 H4. generalize (ticked id seen a d s1). intros s2 H3 H4.
  assert (H5 : timers (cmp (onCmp (clearTimeout (S id)) s2)) = timers (cmp w)).
  { change (timers (cmp (onCmp (clearTimeout (S id)) s2)))
      with (filter (fun t => negb (Nat.eqb (timerId t) (S id))) (timers (cmp s2))).
    rewrite H3, (cleared_timers (S id) id), cleared_only, app_nil_r
      by (exact Hf || lia).
    reflexivity. }
  assert (H6 : timer (cmp (onCmp (clearTimeout (S id)) s2)) = Some (S id))
    by exact H4.
  clear H3 H4. revert H5 H6. generalize (onCmp (clearTimeout (S id)) s2).
  intros s3 H5 H6.
  rewrite (retract_timers_tracked seen None (S id) s3 H6), H5.
  exact (filter_fresh id (S id) (timers (cmp w)) Hf ltac:(lia)).
Qed.

Lemma settled_component w :
  hidden (onCmp Toast.resetConfig (mark false (onCmp (assign TransY (-100)) w)))
  /\ timer (cmp (onCmp Toast.resetConfig
                   (mark false (onCmp (assign TransY (-100)) w))))
     = timer (cmp w)
  /\ timers (cmp (onCmp Toast.resetConfig
                    (mark false (onCmp (assign TransY (-100)) w))))
     = timers (cmp w)
  /\ rendersNull (config (cmp (onCmp Toast.resetConfig
                                 (mark false (onCmp (assign TransY (-100)) w)))))
     = true
  /\ mgr (onCmp Toast.resetConfig (mark false (onCmp (assign TransY (-100)) w)))
     = set_isAnimating false (mgr w)
  /\ trace (onCmp Toast.resetConfig (mark false (onCmp (assign TransY (-100)) w)))
     = trace w.
Proof. repeat split. Qed.

Lemma run_exit_idle build w t0 t3 r0 :
  freshTimers (cmp w) -> queue (mgr w) = [] ->
  run build t3 (FinishAnimation TransY) (exiting w t0 r0)
  = Some (onCmp Toast.resetConfig (releasedAfter w t0 r0)).
Proof.
  intros Hf Hq. destruct build.
  - rewrite (run_exit_monolith w t0 t3 r0).
    rewrite drain_empty; [reflexivity|].
    rewrite releasedAfter_mgr. exact Hq.
  - rewrite (run_exit_modular w t0 t3 r0 Hq). reflexivity.
Qed.

(** X17.  A toast that runs its whole lifecycle with nothing queued leaves
    the component as it found it: hidden (not animating, [transY] at -100),
    no timer tracked and none pending beyond those there before, no text
    to render, and the manager idle.  Both timers the toast started are
    gone, the first by firing, the second cleared when it fired. *)
Theorem lifecycle_leaves_nothing_behind (build : Build) (w : World)
    (t0 t1 t2 t3 : Z) (m : jsstring) (ty : option ToastType)
    (o : option ToastOptions) :
  freshTimers (cmp w) ->
  timer (cmp w) = None ->
  toastRef (mgr w) <> None ->
  isAnimating (mgr w) = false ->
  THROTTLE_DELAY <= t0 - lastToastTime (mgr w) ->
  blank m = false ->
  queue (mgr w) = [] ->
  exists w4,
    runAll build
      [(t0, MgrShow m ty o); (t1, FireTimer (nextTimerId (cmp w)));
       (t2, FireTimer (S (nextTimerId (cmp w))));
       (t3, FinishAnimation TransY)] w = Some w4
    /\ hidden w4
    /\ timer (cmp w4) = None
    /\ timers (cmp w4) = timers (cmp w)
    /\ rendersNull (config (cmp w4)) = true
    /\ isAnimating (mgr w4) = false
    /\ queue (mgr w4) = [].
Proof.
  intros Hf Ht Hr Hi Hth Hb Hq.
  rewrite run_lifecycle by assumption.
  set (R := mkRequest m (typeDefault ty) o).
  rewrite (run_exit_idle build w t0 t3 R Hf Hq).
  eexists. split; [reflexivity|].
  unfold releasedAfter.
  destruct (exiting_timers w t0 R Hf Ht) as (Hts & Htm).
  pose proof (exiting_mgr w t0 R) as Hm.
  revert Hts Htm Hm. generalize (exiting w t0 R). intros X Hts Htm Hm.
  destruct (settled_component X) as (H1 & H2 & H3 & H4 & H5 & _).
  split; [exact H1|]. split; [now rewrite H2|]. split; [now rewrite H3|].
  split; [exact H4|]. rewrite H5, Hm. split; [reflexivity | exact Hq].
Qed.

Lemma lifecycle_leaves_nothing_behind_witness :
  exists w4,
    runAll modular
      [(1000000, MgrShow (js "A") None None); (1000001, FireTimer 1%nat);
       (1004001, FireTimer 2%nat); (1004801, FinishAnimation TransY)] idle
    = Some w4
    /\ hidden w4 /\ timers (cmp w4) = [] /\ isAnimating (mgr w4) = false.
Proof.
  destruct (lifecycle_leaves_nothing_behind modular idle
              1000000 1000001 1004001 1004801 (js "A") None None)
    as (w4 & Hrun & Hh & _ & Hts & _ & Hi & _).
  - constructor.
  - reflexivity.
  - discriminate.
  - reflexivity.
  - vm_compute. discriminate.
  - reflexivity.
  - reflexivity.
  - exists w4. split; [exact Hrun|]. split; [exact Hh|].
    split; [exact Hts | exact Hi].
Defined.
